(** * prom-autoexporter: the Docker backend and the event retry helper

    A shallow embedding of [backend/docker/backend.go] (the startup
    pipeline, teardown, missing-exporter detection, exporter naming) and
    of the [retry] helper of the event listener, with the properties the
    specification states about them.

    Conventions.  Go strings are [string] (sequences of bytes).  A Go
    [map[string]T] is a [gmap string T]; the map used as a set of names is
    a [gset string].  The container runtime is reached through the
    [client.APIClient] interface: it is a type class over an abstract
    state [R] of everything outside the program (the daemon, and the
    cancellation state of the context, which other goroutines change).
    Every call made through an interface is recorded in a trace. *)

From Equations Require Import Equations.
From Stdlib Require Import ZArith String Ascii List Lia.
From stdpp Require Import gmap strings list.
Import ListNotations.
Local Open Scope string_scope.

(** ** Package [strings] and [fmt] as far as the backend uses them *)

(** [strings.HasPrefix]. *)
Fixpoint HasPrefix (s prefix : string) : bool :=
  match prefix with
  | EmptyString => true
  | String a prefix' =>
      match s with
      | EmptyString => false
      | String c s' => Ascii.eqb c a && HasPrefix s' prefix'
      end
  end.

(** [strings.Contains]: [substr] occurs somewhere in [s]. *)
Fixpoint Contains (s substr : string) : bool :=
  HasPrefix s substr ||
  match s with
  | EmptyString => false
  | String _ s' => Contains s' substr
  end.

(** Membership of a byte in a cutset. *)
Fixpoint inCutset (c : ascii) (cutset : string) : bool :=
  match cutset with
  | EmptyString => false
  | String d cutset' => Ascii.eqb c d || inCutset c cutset'
  end.

(** [strings.TrimLeft]: drops every leading byte that belongs to [cutset].
    The only cutset of the backend is the one-byte string "/", for which
    Go's rune-wise trimming and this byte-wise trimming agree. *)
Fixpoint TrimLeft (s cutset : string) : string :=
  match s with
  | EmptyString => EmptyString
  | String c s' => if inCutset c cutset then TrimLeft s' cutset else s
  end.

(** [strings.Join]. *)
Definition Join (elems : list string) (sep : string) : string :=
  String.concat sep elems.

(** The double quote, and [%q] on a string without bytes to escape. *)
Definition dquote : string := String (ascii_of_nat 34) EmptyString.
Definition quoted (s : string) : string := dquote +:+ s +:+ dquote.

(** ** Errors *)

(** An error produced by the runtime client: its message, and whether it
    answers [NotFound() = true] (what [client.IsErrNotFound] tests). *)
Record cerror := { cmsg : string; cnotFound : bool }.

(** Modelled from the spec: the last constructor is the still-running
    refusal of a teardown, the error type behind
    [newErrExportedTaskStillRunning] and [IsErrExportedTaskStillRunning],
    which a file of the package outside the sources at hand declares; it
    carries the id of the sidecar and the id of the monitored container.
    The other constructors are the errors that reach the backend from
    elsewhere: an error of the runtime client, [errors.New], and
    [errors.WithStack] of github.com/pkg/errors, which records the call
    stack and embeds the error, whose message and cause it keeps. *)
Inductive error :=
| errClient (e : cerror)
| errNew (msg : string)
| errWithStack (e : error)
| errExportedTaskStillRunning (exporterCID exportedCID : string).

(** Modelled from the spec: [newErrExportedTaskStillRunning], declared
    outside the sources at hand, makes the still-running refusal from the
    two ids. *)
Definition newErrExportedTaskStillRunning (exporterCID exportedCID : string) : error :=
  errExportedTaskStillRunning exporterCID exportedCID.

(** [err.Error()].  Modelled from the spec for the still-running refusal:
    its message is the one the test of [CleanupExporter] expects, which
    names both ids. *)
Fixpoint Error (e : error) : string :=
  match e with
  | errClient c => cmsg c
  | errNew msg => msg
  | errWithStack e' => Error e'
  | errExportedTaskStillRunning exporterCID exportedCID =>
      "Exporter " +:+ quoted exporterCID +:+
      " can't be stopped, exported container " +:+ quoted exportedCID +:+
      " still running."
  end.

(** [errors.Cause]: the error under the recorded stacks. *)
Fixpoint Cause (e : error) : error :=
  match e with
  | errWithStack e' => Cause e'
  | _ => e
  end.

(** [client.IsErrNotFound]. *)
Definition IsErrNotFound (e : cerror) : bool := cnotFound e.

(** Modelled from the spec: [IsErrExportedTaskStillRunning] is declared
    next to [newErrExportedTaskStillRunning], outside the sources at hand;
    it recognises the still-running refusal, which is surfaced distinctly
    from every other failure. *)
Definition IsErrExportedTaskStillRunning (e : error) : bool :=
  match e with
  | errExportedTaskStillRunning _ _ => true
  | _ => false
  end.

(** ** Data model: package [models] and the runtime's types *)

Definition LABEL_EXPORTER : string := "autoexporter.exporter".
Definition LABEL_EXPORTED_ID : string := "autoexporter.exported.id".
Definition LABEL_EXPORTED_NAME : string := "autoexporter.exported.name".

Definition stepPullImage : string := "pullImage".
Definition stepCreate : string := "create".
Definition stepConnect : string := "connect".
Definition stepStart : string := "start".
Definition stepFinished : string := "finished".

(** [models.TaskToExport]. *)
Record TaskToExport := {
  task_ID : string;
  task_Name : string;
  task_Labels : gmap string string
}.

(** [models.Exporter]. *)
Record Exporter := {
  Name : string;
  ExporterType : string;
  Image : string;
  Cmd : list string;
  EnvVars : list string;
  Port : string;
  ExportedTask : TaskToExport
}.

(** [m.Name = name] on a copy of [m]. *)
Definition withName (m : Exporter) (name : string) : Exporter :=
  {| Name := name; ExporterType := ExporterType m; Image := Image m;
     Cmd := Cmd m; EnvVars := EnvVars m; Port := Port m;
     ExportedTask := ExportedTask m |}.

(** [container.Config], the fields the backend sets. *)
Record Config := {
  cfg_User : string;
  cfg_Cmd : list string;
  cfg_Image : string;
  cfg_Env : list string;
  cfg_Labels : gmap string string
}.

Record RestartPolicy := {
  rp_Name : string;
  rp_MaximumRetryCount : Z
}.

(** [container.HostConfig], the fields the backend sets. *)
Record HostConfig := {
  hc_NetworkMode : string;
  hc_RestartPolicy : RestartPolicy
}.

(** [container.ContainerCreateCreatedBody]. *)
Record CreatedBody := {
  created_ID : string;
  created_Warnings : list string
}.

(** [types.Container], an entry of a container listing. *)
Record Container := {
  ctr_ID : string;
  ctr_Names : list string;
  ctr_Labels : gmap string string
}.

(** [types.ContainerJSON], the answer of an inspection: the backend reads
    [State.Running] only. *)
Record ContainerJSON := {
  json_ID : string;
  json_Running : bool
}.

(** [types.ContainerListOptions] with the filters the backend builds. *)
Record ListOptions := {
  lo_All : bool;
  lo_Filters : list (string * string)
}.

(** [m[k]] on a Go map of strings: the zero value when [k] is absent. *)
Definition labelOf (m : gmap string string) (k : string) : string :=
  default "" (m !! k).

(** ** The runtime client and the trace of calls *)

(** The result of [ImagePull]: an error, or a stream that [ioutil.ReadAll]
    drains, successfully or not. *)
Inductive PullResult :=
| pullFailed (e : cerror)
| pullStream (readErr : option cerror).

(** [client.APIClient], the methods the backend calls.  Each acts on the
    state [R] of the outside world and returns its Go results. *)
Class APIClient (R : Type) := {
  ImagePull : string -> R -> PullResult * R;
  ContainerCreate : Config -> HostConfig -> string -> R -> (cerror + CreatedBody) * R;
  NetworkConnect : string -> string -> R -> option cerror * R;
  ContainerStart : string -> R -> option cerror * R;
  ContainerList : ListOptions -> R -> (cerror + list Container) * R;
  ContainerInspect : string -> R -> (cerror + ContainerJSON) * R;
  NetworkDisconnect : string -> string -> bool -> R -> option cerror * R;
  ContainerStop : string -> R -> option cerror * R;
  ContainerRemove : string -> bool -> R -> option cerror * R
}.

(** One recorded call, with the arguments the backend passed. *)
Inductive Call :=
| CallImagePull (image : string)
| CallContainerCreate (config : Config) (hostConfig : HostConfig) (name : string)
| CallNetworkConnect (networkID containerID : string)
| CallContainerStart (containerID : string)
| CallContainerList (opts : ListOptions)
| CallContainerInspect (containerID : string)
| CallNetworkDisconnect (networkID containerID : string) (force : bool)
| CallContainerStop (containerID : string)
| CallContainerRemove (containerID : string) (force : bool)
| CallFindMatchingExporters (t : TaskToExport).

(** The state a backend method runs in. *)
Record World (R : Type) := mkWorld {
  env : R;
  calls : list Call
}.
Arguments mkWorld {R} _ _.
Arguments env {R} _.
Arguments calls {R} _.

(** How a Go function ends: it returns, it panics (an index out of range),
    or the model's loop bound was too small. *)
Inductive Outcome (A : Type) :=
| Val (a : A)
| Panic (msg : string)
| OutOfFuel.
Arguments Val {A} _.
Arguments Panic {A} _.
Arguments OutOfFuel {A}.

Definition M (R A : Type) : Type := World R -> Outcome A * World R.

Definition ret {R A} (a : A) : M R A := fun w => (Val a, w).

Definition bind {R A B} (m : M R A) (k : A -> M R B) : M R B :=
  fun w =>
    match m w with
    | (Val a, w') => k a w'
    | (Panic msg, w') => (Panic msg, w')
    | (OutOfFuel, w') => (OutOfFuel, w')
    end.

Definition panic {R A} (msg : string) : M R A := fun w => (Panic msg, w).

Notation "'do' x <- m ; k" := (bind m (fun x => k))
  (at level 10, x name, m at level 100, k at level 200,
   format "'[v' 'do'  x  <-  m ; '/' k ']'").

(** A call through an interface: recorded, then performed. *)
Definition invoke {R A} (c : Call) (op : R -> A * R) : M R A :=
  fun w =>
    let (a, r) := op (env w) in
    (Val a, mkWorld r (calls w ++ [c])%list).

(** [xs[0]]: a run-time panic on an empty slice. *)
Definition first {R} (xs : list string) : M R string :=
  match xs with
  | x :: _ => ret x
  | [] => panic "index out of range [0] with length 0"
  end.

(** Go ranges over a map in an order the language leaves unspecified: some
    enumeration of its entries. *)
Class MapRange := {
  mapRange : forall {V : Type}, gmap string V -> list (string * V);
  mapRange_perm : forall (V : Type) (m : gmap string V), mapRange m ≡ₚ map_to_list m
}.

(** ** The backend *)

(** [models.ExporterFinder]: the catalog, an opaque lookup that returns the
    matches by catalog key and the non-fatal errors it met.  It is a
    function of the task: the catalog keeps no state between two calls. *)
Class ExporterFinder := {
  FindMatchingExporters : TaskToExport -> gmap string Exporter * list error
}.

(** [DockerBackend]. *)
Record DockerBackend (R : Type) := NewDockerBackend {
  cli : APIClient R;
  promNetwork : string;
  finder : ExporterFinder
}.
Arguments NewDockerBackend {R} _ _ _.
Arguments cli {R} _.
Arguments promNetwork {R} _.
Arguments finder {R} _.

(** A [context.Context] as the backend uses it: whether [Done] is closed,
    which the outside world decides. *)
Definition Context (R : Type) : Type := R -> bool.

Definition ctxDone {R} (ctx : Context R) : M R bool :=
  fun w => (Val (ctx (env w)), w).

Record process := {
  exporter : Exporter;
  step : string;
  exporterCID : string
}.

Definition getExporterName (exporterType tname : string) : string :=
  "/exporter." +:+ exporterType +:+ "." +:+ TrimLeft tname "/".

Section Methods.
Context {R : Type} {order : MapRange}.
Variable b : DockerBackend R.

Definition pullImage (image : string) : M R (option error) :=
  do rc <- invoke (CallImagePull image) (ImagePull (APIClient := cli b) image);
  match rc with
  | pullFailed err => ret (Some (errWithStack (errClient err)))
  | pullStream (Some err) => ret (Some (errWithStack (errClient err)))
  | pullStream None => ret None
  end.

Definition createContainer (exporter : Exporter) : M R (string * option error) :=
  let config :=
    {| cfg_User := "1000";
       cfg_Cmd := Cmd exporter;
       cfg_Image := Image exporter;
       cfg_Env := EnvVars exporter;
       cfg_Labels :=
         <[LABEL_EXPORTED_NAME := task_Name (ExportedTask exporter)]>
           (<[LABEL_EXPORTED_ID := task_ID (ExportedTask exporter)]> ∅) |} in
  let hostConfig :=
    {| hc_NetworkMode := "container:" +:+ task_ID (ExportedTask exporter);
       hc_RestartPolicy :=
         {| rp_Name := "on-failure"; rp_MaximumRetryCount := 10 |} |} in
  do container <- invoke (CallContainerCreate config hostConfig (Name exporter))
                    (ContainerCreate (APIClient := cli b) config hostConfig (Name exporter));
  match container with
  | inl err => ret ("", Some (errWithStack (errClient err)))
  | inr body => ret (created_ID body, None)
  end.

Definition connectToNetwork (exporter : Exporter) (cid : string) : M R (option error) :=
  do err <- invoke (CallNetworkConnect (promNetwork b) cid)
              (NetworkConnect (APIClient := cli b) (promNetwork b) cid);
  match err with
  | Some e =>
      if Contains (cmsg e) "endpoint with name" then ret None
      else ret (Some (errWithStack (errClient e)))
  | None => ret None
  end.

Definition startContainer (exporter : Exporter) (cid : string) : M R (option error) :=
  do err <- invoke (CallContainerStart cid) (ContainerStart (APIClient := cli b) cid);
  match err with
  | Some e => ret (Some (errWithStack (errClient e)))
  | None => ret None
  end.

(** One iteration of the [for { select { ... } }] loop of [RunExporter]:
    [inl err] when the iteration returns [err] from the function, [inr p']
    when the loop goes round again with the process [p']. *)
Definition iteration (ctx : Context R) (exporter0 : Exporter) (p : process)
  : M R (option error + process) :=
  let after (err : option error) (p' : process) : M R (option error + process) :=
    match err with
    | Some e => ret (inl (Some e))
    | None => ret (inr p')
    end in
  do cancelled <- ctxDone ctx;
  if cancelled then ret (inl None)
  else if String.eqb (step p) stepPullImage then
    do err <- pullImage (Image exporter0);
    after err {| exporter := exporter p; step := stepCreate;
                 exporterCID := exporterCID p |}
  else if String.eqb (step p) stepCreate then
    do r <- createContainer (exporter p);
    after (snd r) {| exporter := exporter p; step := stepConnect;
                     exporterCID := fst r |}
  else if String.eqb (step p) stepConnect then
    do err <- connectToNetwork (exporter p) (exporterCID p);
    after err {| exporter := exporter p; step := stepStart;
                 exporterCID := exporterCID p |}
  else if String.eqb (step p) stepStart then
    do err <- startContainer (exporter p) (exporterCID p);
    after err {| exporter := exporter p; step := stepFinished;
                 exporterCID := exporterCID p |}
  else if String.eqb (step p) stepFinished then ret (inl None)
  else after (Some (errNew ("undefined step " +:+ step p))) p.

(** The loop itself; [fuel] bounds the number of iterations. *)
Fixpoint runLoop (fuel : nat) (ctx : Context R) (exporter0 : Exporter) (p : process)
  : M R (option error) :=
  match fuel with
  | O => fun w => (OutOfFuel, w)
  | S fuel' =>
      do r <- iteration ctx exporter0 p;
      match r with
      | inl err => ret err
      | inr p' => runLoop fuel' ctx exporter0 p'
      end
  end.

(** [RunExporter].  Five iterations reach [stepFinished]; the bound
    leaves room, and the theorems below show that it is never hit. *)
Definition RunExporter (ctx : Context R) (exporter : Exporter) : M R (option error) :=
  runLoop 8 ctx exporter
    {| exporter := exporter; step := stepPullImage; exporterCID := "" |}.

Definition resolveExporters (t : TaskToExport) : M R (list Exporter) :=
  do r <- invoke (CallFindMatchingExporters t)
            (fun e => (FindMatchingExporters (ExporterFinder := finder b) t, e));
  ret (foldl (fun exporters (km : string * Exporter) =>
                (exporters ++ [withName (snd km) (getExporterName (fst km) (task_Name t))])%list)
             [] (mapRange (fst r))).

(** The second loop of [FindMissingExporters]. *)
Fixpoint missingLoop (containerNames : gmap string string) (containers : list Container)
    (missing : list Exporter) : M R (list Exporter) :=
  match containers with
  | [] => ret missing
  | container :: rest =>
      match ctr_Labels container !! LABEL_EXPORTED_NAME with
      | Some _ => missingLoop containerNames rest missing
      | None =>
          do name0 <- first (ctr_Names container);
          let t := {| task_ID := ctr_ID container; task_Name := name0;
                      task_Labels := ctr_Labels container |} in
          do exporters <- resolveExporters t;
          missingLoop containerNames rest
            (foldl (fun missing exporter =>
                      match containerNames !! Name exporter with
                      | Some _ => missing
                      | None => (missing ++ [exporter])%list
                      end) missing exporters)
      end
  end.

Definition collectNames (containers : list Container) : gmap string string :=
  foldl (fun names container =>
           foldl (fun names name => <[name := name]> names) names (ctr_Names container))
        ∅ containers.

Definition FindMissingExporters : M R (list Exporter * option error) :=
  let opts := {| lo_All := false; lo_Filters := [] |} in
  do r <- invoke (CallContainerList opts) (ContainerList (APIClient := cli b) opts);
  match r with
  | inl err => ret ([], Some (errWithStack (errClient err)))
  | inr containers =>
      do missing <- missingLoop (collectNames containers) containers [];
      ret (missing, None)
  end.

Definition stopExporter (exporter : Container) (force : bool) : M R (option error) :=
  let exporterCID := ctr_ID exporter in
  let exportedCID := labelOf (ctr_Labels exporter) LABEL_EXPORTED_ID in
  let teardown : M R (option error) :=
    do err <- invoke (CallNetworkDisconnect (promNetwork b) exporterCID force)
                (NetworkDisconnect (APIClient := cli b) (promNetwork b) exporterCID force);
    match err with
    | Some e => ret (Some (errWithStack (errClient e)))
    | None =>
        do err <- invoke (CallContainerStop exporterCID)
                    (ContainerStop (APIClient := cli b) exporterCID);
        match err with
        | Some e => ret (Some (errWithStack (errClient e)))
        | None =>
            do err <- invoke (CallContainerRemove exporterCID force)
                        (ContainerRemove (APIClient := cli b) exporterCID force);
            match err with
            | Some e => ret (Some (errWithStack (errClient e)))
            | None =>
                (* the log fields read [exporter.Names[0]] *)
                do _name <- first (ctr_Names exporter);
                ret None
            end
        end
    end in
  do r <- invoke (CallContainerInspect exportedCID)
            (ContainerInspect (APIClient := cli b) exportedCID);
  match r with
  | inl err =>
      if negb (IsErrNotFound err) then ret (Some (errWithStack (errClient err)))
      else teardown
  | inr exported =>
      if json_Running exported && negb force
      then ret (Some (newErrExportedTaskStillRunning (ctr_ID exporter) exportedCID))
      else teardown
  end.

(** The loop of [CleanupExporters] and the code after it. *)
Fixpoint cleanupLoop (force : bool) (exporters : list Container) (failed : list string)
  : M R (option error) :=
  match exporters with
  | [] =>
      if (0 <? length failed)%nat
      then ret (Some (errNew ("failed to cleanup " +:+ Join failed ", ")))
      else ret None
  | exporter :: rest =>
      do err <- stopExporter exporter force;
      match err with
      | Some e =>
          if negb (IsErrExportedTaskStillRunning e) then ret (Some e)
          else
            do name0 <- first (ctr_Names exporter);
            cleanupLoop force rest (failed ++ [name0])%list
      | None => cleanupLoop force rest failed
      end
  end.

Definition CleanupExporters (force : bool) : M R (option error) :=
  let opts := {| lo_All := true; lo_Filters := [("label", LABEL_EXPORTED_ID)] |} in
  do r <- invoke (CallContainerList opts) (ContainerList (APIClient := cli b) opts);
  match r with
  | inl err => ret (Some (errWithStack (errClient err)))
  | inr exporters => cleanupLoop force exporters []
  end.

Definition CleanupExporter (exporterName : string) (force : bool) : M R (option error) :=
  let opts := {| lo_All := false; lo_Filters := [("name", exporterName)] |} in
  do r <- invoke (CallContainerList opts) (ContainerList (APIClient := cli b) opts);
  match r with
  | inl err => ret (Some (errClient err))
  | inr [] => ret (Some (errNew "exporter not found"))
  | inr [c0] => stopExporter c0 force
  | inr (_ :: _ :: _) =>
      ret (Some (errNew "more than one container match the provided exporter name"))
  end.

End Methods.

(** ** The retry helper of the event listener *)

(** Go's [uint] on a 64-bit platform: arithmetic modulo [2^64]. *)
Definition uintModulus : Z := 2 ^ 64.
Definition uintSub (a b : Z) : Z := (a - b) mod uintModulus.

(** What [retry] does that can be observed: it invokes [f], and it sleeps. *)
Inductive RetryEvent :=
| Invoked
| Slept (interval : Z).

(** The state [retry] runs in: the state [St] its operation acts on, and the
    events so far. *)
Record RetryWorld (St : Type) := mkRetryWorld {
  opState : St;
  events : list RetryEvent
}.
Arguments mkRetryWorld {St} _ _.
Arguments opState {St} _.
Arguments events {St} _.

(** [retry(times, interval, f)].  The recursion is the source's; it is
    well founded because the decremented counter, when it is not zero,
    is one less than the distance of [times] to the next wrap-around. *)
Equations? retry {St : Type} (times : Z) (interval : Z) (f : St -> option error * St)
    (w : RetryWorld St) : option error * RetryWorld St
    by wf (Z.to_nat (uintSub times 1)) lt :=
  retry times interval f w with f (opState w) := {
    | (None, s1) => (None, mkRetryWorld s1 (events w ++ [Invoked])%list);
    | (Some err, s1) with Z.eq_dec (uintSub times 1) 0%Z := {
        | left _ => (Some err, mkRetryWorld s1 (events w ++ [Invoked])%list);
        | right _ =>
            retry (uintSub times 1) interval f
              (mkRetryWorld s1 (events w ++ [Invoked; Slept interval])%list) } }.
Proof.
  unfold uintSub, uintModulus in *.
  set (t := ((times - 1) mod 2 ^ 64)%Z) in *.
  assert (0 <= t < 2 ^ 64)%Z by (apply Z.mod_pos_bound; lia).
  rewrite (Z.mod_small (t - 1)) by lia. lia.
Qed.

(** ** Reaching a step boundary *)

(** [reaches b ctx e0 p w p' w']: started at the top of the loop with the
    process [p] in the world [w], the loop of [RunExporter] comes to the top
    again with the process [p'] in the world [w'], every iteration in
    between having gone round (no return, no error). *)
Inductive reaches {R : Type} (b : DockerBackend R) (ctx : Context R) (exporter0 : Exporter)
  : process -> World R -> process -> World R -> Prop :=
| reaches_here p w : reaches b ctx exporter0 p w p w
| reaches_next p w p1 w1 p2 w2 :
    iteration b ctx exporter0 p w = (Val (inr p1), w1) ->
    reaches b ctx exporter0 p1 w1 p2 w2 ->
    reaches b ctx exporter0 p w p2 w2.

(** The configuration [createContainer] passes for an exporter. *)
Definition configOf (exporter : Exporter) : Config :=
  {| cfg_User := "1000";
     cfg_Cmd := Cmd exporter;
     cfg_Image := Image exporter;
     cfg_Env := EnvVars exporter;
     cfg_Labels :=
       <[LABEL_EXPORTED_NAME := task_Name (ExportedTask exporter)]>
         (<[LABEL_EXPORTED_ID := task_ID (ExportedTask exporter)]> ∅) |}.

Definition hostConfigOf (exporter : Exporter) : HostConfig :=
  {| hc_NetworkMode := "container:" +:+ task_ID (ExportedTask exporter);
     hc_RestartPolicy := {| rp_Name := "on-failure"; rp_MaximumRetryCount := 10 |} |}.

(** The calls of the four steps, for an exporter whose container got the
    id [cid]. *)
Definition pullCall (exporter : Exporter) : Call := CallImagePull (Image exporter).
Definition createCall (exporter : Exporter) : Call :=
  CallContainerCreate (configOf exporter) (hostConfigOf exporter) (Name exporter).
Definition connectCall {R} (b : DockerBackend R) (cid : string) : Call :=
  CallNetworkConnect (promNetwork b) cid.
Definition startCall (cid : string) : Call := CallContainerStart cid.

(** An error of the client as the backend hands it on, under a recorded
    stack. *)
Definition stacked (err : option cerror) : option error :=
  match err with
  | Some e => Some (errWithStack (errClient e))
  | None => None
  end.

(** A string of [n] slashes. *)
Fixpoint slashes (n : nat) : string :=
  match n with
  | O => EmptyString
  | S n' => String "/" (slashes n')
  end.

(** ** A scripted client, after the [fakeClient] of the tests *)

(** What the scripted client answers, and after how many calls the context
    it runs under gets cancelled (never, for [None]). *)
Record Script := {
  onPull : PullResult;
  onCreate : cerror + CreatedBody;
  onConnect : option cerror;
  onStart : option cerror;
  onList : cerror + list Container;
  onInspect : string -> cerror + ContainerJSON;
  onDisconnect : string -> option cerror;
  onStop : string -> option cerror;
  onRemove : string -> option cerror;
  cancelAfter : option nat
}.

(** The outside world of the scripted client: the script and the number of
    calls received. *)
Definition Fake : Type := Script * nat.

Definition answer {A} (f : Script -> A) : Fake -> A * Fake :=
  fun r => (f (fst r), (fst r, S (snd r))).

#[export] Instance fakeClient : APIClient Fake := {|
  ImagePull _ := answer onPull;
  ContainerCreate _ _ _ := answer onCreate;
  NetworkConnect _ _ := answer onConnect;
  ContainerStart _ := answer onStart;
  ContainerList _ := answer onList;
  ContainerInspect cid := answer (fun s => onInspect s cid);
  NetworkDisconnect _ cid _ := answer (fun s => onDisconnect s cid);
  ContainerStop cid := answer (fun s => onStop s cid);
  ContainerRemove cid _ := answer (fun s => onRemove s cid)
|}.

(** The context of the scripted world. *)
Definition fakeCtx : Context Fake :=
  fun r =>
    match cancelAfter (fst r) with
    | Some n => (n <=? snd r)%nat
    | None => false
    end.

(** A range order to run examples with: the order of [map_to_list]. *)
#[export] Instance listOrder : MapRange := {|
  mapRange V m := map_to_list m;
  mapRange_perm V m := reflexivity (map_to_list m)
|}.

(** A catalog that matches nothing. *)
Definition emptyFinder : ExporterFinder :=
  {| FindMatchingExporters _ := (∅, []) |}.

(** The exporter and the client answers of the test of [RunExporter]. *)
Definition redisExporter : Exporter :=
  {| Name := "exporter004";
     ExporterType := "redis";
     Image := "oliver006/redis_exporter:latest";
     Cmd := ["-redis.addr=redis://localhost:6379"];
     EnvVars := ["FOO=BAR"];
     Port := "9121";
     ExportedTask :=
       {| task_ID := "012dfc9"; task_Name := "task-to-export"; task_Labels := ∅ |} |}.

Definition notFound : cerror := {| cmsg := "fake not found error"; cnotFound := true |}.

Definition okScript : Script :=
  {| onPull := pullStream None;
     onCreate := inr {| created_ID := "9d234f"; created_Warnings := [] |};
     onConnect := None;
     onStart := None;
     onList := inr [];
     onInspect _ := inl notFound;
     onDisconnect _ := None;
     onStop _ := None;
     onRemove _ := None;
     cancelAfter := None |}.

Definition testBackend : DockerBackend Fake :=
  NewDockerBackend fakeClient "testnet" emptyFinder.

(** The calls [RunExporter] has issued when its loop is at the top with the
    process [p]. *)
Definition callsBefore {R} (b : DockerBackend R) (exporter0 : Exporter) (p : process)
  : list Call :=
  if String.eqb (step p) stepPullImage then []
  else if String.eqb (step p) stepCreate then [pullCall exporter0]
  else if String.eqb (step p) stepConnect then [pullCall exporter0; createCall exporter0]
  else if String.eqb (step p) stepStart then
    [pullCall exporter0; createCall exporter0; connectCall b (exporterCID p)]
  else if String.eqb (step p) stepFinished then
    [pullCall exporter0; createCall exporter0; connectCall b (exporterCID p);
     startCall (exporterCID p)]
  else [].

(** The number of iterations the loop still needs from a step. *)
Definition rank (s : string) : nat :=
  if String.eqb s stepPullImage then 5
  else if String.eqb s stepCreate then 4
  else if String.eqb s stepConnect then 3
  else if String.eqb s stepStart then 2
  else 1.

(** The process [RunExporter] starts with. *)
Definition startProcess (exporter0 : Exporter) : process :=
  {| exporter := exporter0; step := stepPullImage; exporterCID := "" |}.

(** The scripted worlds of the examples: a script and the calls it has
    received, with the trace given. *)
Definition fakeWorld (s : Script) (n : nat) (tr : list Call) : World Fake :=
  mkWorld (s, n) tr.

(** The script of the cancellation test: the context is cancelled while the
    container is created. *)
Definition cancelInCreate : Script :=
  {| onPull := pullStream None;
     onCreate := inr {| created_ID := "9d234f"; created_Warnings := [] |};
     onConnect := None;
     onStart := None;
     onList := inr [];
     onInspect _ := inl notFound;
     onDisconnect _ := None;
     onStop _ := None;
     onRemove _ := None;
     cancelAfter := Some 2 |}.

(** A pull that is interrupted by the cancellation of its context and
    fails for it. *)
Definition contextCanceled : cerror :=
  {| cmsg := "context canceled"; cnotFound := false |}.

Definition cancelInFailingPull : Script :=
  {| onPull := pullFailed contextCanceled;
     onCreate := inr {| created_ID := "9d234f"; created_Warnings := [] |};
     onConnect := None;
     onStart := None;
     onList := inr [];
     onInspect _ := inl notFound;
     onDisconnect _ := None;
     onStop _ := None;
     onRemove _ := None;
     cancelAfter := Some 1 |}.

(** Scripts whose connect call fails, with a given error. *)
Definition connectFails (e : cerror) : Script :=
  {| onPull := pullStream None;
     onCreate := inr {| created_ID := "9d234f"; created_Warnings := [] |};
     onConnect := Some e;
     onStart := None;
     onList := inr [];
     onInspect _ := inl notFound;
     onDisconnect _ := None;
     onStop _ := None;
     onRemove _ := None;
     cancelAfter := None |}.

Definition alreadyConnected : cerror :=
  {| cmsg := "endpoint with name exporter004 already exists in network testnet";
     cnotFound := false |}.

Definition connectError : cerror :=
  {| cmsg := "error connecting to network"; cnotFound := false |}.

(** ** Teardown: what the statements below are phrased with *)

(** The calls of a single teardown before the sidecar is touched: the
    listing by name and the inspection of the monitored container. *)
Definition lookupCalls (exporterName : string) (exporter : Container) : list Call :=
  [CallContainerList {| lo_All := false; lo_Filters := [("name", exporterName)] |};
   CallContainerInspect (labelOf (ctr_Labels exporter) LABEL_EXPORTED_ID)].

(** [teardowns b force w exporters results w']: from the world [w],
    [stopExporter] is run on every container of [exporters] in turn; it
    returns [results], one for each, and leaves the world [w']. *)
Inductive teardowns {R : Type} (b : DockerBackend R) (force : bool)
  : World R -> list Container -> list (option error) -> World R -> Prop :=
| teardowns_nil w : teardowns b force w [] [] w
| teardowns_cons w exporter rest result w1 results w2 :
    stopExporter b exporter force w = (Val result, w1) ->
    teardowns b force w1 rest results w2 ->
    teardowns b force w (exporter :: rest) (result :: results) w2.

(** A teardown that succeeded or was refused because the monitored
    container is still running. *)
Definition doneOrRefused (result : option error) : Prop :=
  match result with
  | None => True
  | Some e => IsErrExportedTaskStillRunning e = true
  end.

(** The first names of the containers whose teardown was refused. *)
Fixpoint refused (exporters : list Container) (results : list (option error))
  : list string :=
  match exporters, results with
  | exporter :: rest, Some e :: results' =>
      if IsErrExportedTaskStillRunning e
      then (List.hd "" (ctr_Names exporter) :: refused rest results')%list
      else refused rest results'
  | _ :: rest, None :: results' => refused rest results'
  | _, _ => []
  end.

(** The error [CleanupExporters] ends with for a list of refused names. *)
Definition aggregate (failed : list string) : option error :=
  match failed with
  | [] => None
  | _ :: _ => Some (errNew ("failed to cleanup " +:+ Join failed ", "))
  end.

(** The sidecars of the teardown tests and the answers of their
    inspections: the monitored container of the second one is gone, the
    others are running. *)
Definition sidecar (n : string) : Container :=
  {| ctr_ID := "exporter" +:+ n +:+ "-cid";
     ctr_Names := ["exporter" +:+ n];
     ctr_Labels := <[LABEL_EXPORTED_ID := "exported-task" +:+ n +:+ "-cid"]> ∅ |}.

Definition running (cid : string) : ContainerJSON :=
  {| json_ID := cid; json_Running := true |}.

Definition teardownScript (listed : list Container) (inspectError : cerror) : Script :=
  {| onPull := pullStream None;
     onCreate := inr {| created_ID := "9d234f"; created_Warnings := [] |};
     onConnect := None;
     onStart := None;
     onList := inr listed;
     onInspect cid :=
       if String.eqb cid "exported-task002-cid" then inl inspectError
       else inr (running cid);
     onDisconnect _ := None;
     onStop _ := None;
     onRemove _ := None;
     cancelAfter := None |}.

Definition inspectError : cerror :=
  {| cmsg := "error inspecting container"; cnotFound := false |}.

(** The three sidecars of the bulk teardown test and the listing call that
    finds them. *)
Definition threeSidecars : list Container :=
  [sidecar "001"; sidecar "002"; sidecar "003"].

Definition listSidecars : Call :=
  CallContainerList {| lo_All := true; lo_Filters := [("label", LABEL_EXPORTED_ID)] |}.

(** ** Missing exporters: what the statements below are phrased with *)

(** A listed container that carries the bookkeeping label of a sidecar. *)
Definition isSidecar (container : Container) : bool :=
  match ctr_Labels container !! LABEL_EXPORTED_NAME with
  | Some _ => true
  | None => false
  end.

(** The task [FindMissingExporters] makes of a listed container that has a
    name. *)
Definition taskOf (container : Container) : TaskToExport :=
  {| task_ID := ctr_ID container;
     task_Name := List.hd "" (ctr_Names container);
     task_Labels := ctr_Labels container |}.

(** The listing call of [FindMissingExporters]. *)
Definition listAll : Call :=
  CallContainerList {| lo_All := false; lo_Filters := [] |}.

(** The catalog and the listing of the test of [FindMissingExporters]. *)
Definition testFinder : ExporterFinder :=
  {| FindMatchingExporters t :=
       let redis := String.eqb (task_Name t) "/redis" in
       let name := if redis then "redis" else "type" in
       (<[name := {| Name := name;
                     ExporterType := name;
                     Image := if redis then "oliver006/redis_exporter:v0.25.0"
                              else "some/image";
                     Cmd := [];
                     EnvVars := [];
                     Port := if redis then "9121" else "8080";
                     ExportedTask := t |}]> ∅, []) |}.

Definition testListing : list Container :=
  [ {| ctr_ID := "exported-task001-cid";
       ctr_Names := ["/exported-task001"];
       ctr_Labels := ∅ |};
    {| ctr_ID := "exporter001-cid";
       ctr_Names := ["/exporter.type.exported-task001"];
       ctr_Labels :=
         <[LABEL_EXPORTED_NAME := "exported-task001"]>
           (<[LABEL_EXPORTED_ID := "exported-task001-cid"]> ∅) |};
    {| ctr_ID := "exported-task002-cid";
       ctr_Names := ["/redis"];
       ctr_Labels := ∅ |} ].

Definition listingScript (listed : list Container) : Script :=
  {| onPull := pullStream None;
     onCreate := inr {| created_ID := "9d234f"; created_Warnings := [] |};
     onConnect := None;
     onStart := None;
     onList := inr listed;
     onInspect _ := inl notFound;
     onDisconnect _ := None;
     onStop _ := None;
     onRemove _ := None;
     cancelAfter := None |}.

Definition finderBackend : DockerBackend Fake :=
  NewDockerBackend fakeClient "testnet" testFinder.

(** Whether the name of an exporter is among the names collected. *)
Definition nameTaken (containerNames : gmap string string) (e : Exporter) : bool :=
  match containerNames !! Name e with
  | Some _ => true
  | None => false
  end.

(** The exporters the catalog gives for a listed container, named. *)
Definition resolved {R : Type} {order : MapRange} (b : DockerBackend R)
    (container : Container) : list Exporter :=
  map (fun km : string * Exporter =>
         withName (snd km) (getExporterName (fst km) (task_Name (taskOf container))))
      (mapRange (fst (FindMatchingExporters (ExporterFinder := finder b) (taskOf container)))).

(** The calls to the catalog that [FindMissingExporters] makes for a
    listing. *)
Definition finderCalls (containers : list Container) : list Call :=
  map (fun container => CallFindMatchingExporters (taskOf container))
      (List.filter (fun container => negb (isSidecar container)) containers).

(** ** The retry helper: what the statements below are phrased with *)

(** The state of the operation after [i] invocations, from the state [s]. *)
Fixpoint stateAfter {St : Type} (f : St -> option error * St) (s : St) (i : nat) : St :=
  match i with
  | O => s
  | S i' => snd (f (stateAfter f s i'))
  end.

(** What the invocation number [i + 1] returns. *)
Definition attempt {St : Type} (f : St -> option error * St) (s : St) (i : nat)
  : option error :=
  fst (f (stateAfter f s i)).

(** The events of [k] invocations with a sleep of [interval] between each
    two of them. *)
Fixpoint schedule (k : nat) (interval : Z) : list RetryEvent :=
  match k with
  | O => []
  | S O => [Invoked]
  | S k' => Invoked :: Slept interval :: schedule k' interval
  end.

(** An operation that fails twice, then succeeds: its state counts the
    failures left. *)
Definition flaky (left : nat) : option error * nat :=
  match left with
  | O => (None, O)
  | S left' => (Some (errNew "not yet"), left')
  end.

(** An operation that always fails. *)
Definition hopeless (s : unit) : option error * unit :=
  (Some (errNew "never"), s).

(** A task that asks for the redis exporter by the exporter-type label,
    and that the catalog of [testFinder] matches under the key "type". *)
Definition labelledTask : TaskToExport :=
  {| task_ID := "0f3c1a";
     task_Name := "/web";
     task_Labels := <[LABEL_EXPORTER := "redis"]> ∅ |}.

(** ** The startup pipeline: what the further statements are phrased with *)

(** The five steps [RunExporter] knows. *)
Definition knownStep (s : string) : Prop :=
  s = stepPullImage \/ s = stepCreate \/ s = stepConnect \/ s = stepStart \/
  s = stepFinished.

(** The call the loop makes at a step, for the process found there. *)
Definition callOf {R : Type} (b : DockerBackend R) (exporter0 : Exporter) (p : process)
  : list Call :=
  if String.eqb (step p) stepPullImage then [pullCall exporter0]
  else if String.eqb (step p) stepCreate then [createCall (exporter p)]
  else if String.eqb (step p) stepConnect then [connectCall b (exporterCID p)]
  else if String.eqb (step p) stepStart then [startCall (exporterCID p)]
  else [].

(** Scripts whose pull, create or start fails. *)
Definition pullError : cerror := {| cmsg := "error pulling image"; cnotFound := false |}.
Definition createError : cerror :=
  {| cmsg := "error creating container"; cnotFound := false |}.
Definition startError : cerror :=
  {| cmsg := "error starting container"; cnotFound := false |}.

Definition stepScript (pull : PullResult) (create : cerror + CreatedBody)
    (start : option cerror) : Script :=
  {| onPull := pull;
     onCreate := create;
     onConnect := None;
     onStart := start;
     onList := inr [];
     onInspect _ := inl notFound;
     onDisconnect _ := None;
     onStop _ := None;
     onRemove _ := None;
     cancelAfter := None |}.

Definition createdBody : CreatedBody :=
  {| created_ID := "9d234f"; created_Warnings := [] |}.

(** ** Teardown: what the further statements are phrased with *)

(** Whether [stopExporter] goes on to the sidecar after the inspection of
    the monitored container. *)
Definition goesOn (inspected : cerror + ContainerJSON) (force : bool) : bool :=
  match inspected with
  | inl err => IsErrNotFound err
  | inr exported => negb (json_Running exported && negb force)
  end.

(** The calls of a teardown that runs to its end. *)
Definition teardownCalls {R : Type} (b : DockerBackend R) (exporter : Container)
    (force : bool) : list Call :=
  [CallContainerInspect (labelOf (ctr_Labels exporter) LABEL_EXPORTED_ID);
   CallNetworkDisconnect (promNetwork b) (ctr_ID exporter) force;
   CallContainerStop (ctr_ID exporter);
   CallContainerRemove (ctr_ID exporter) force].

(** A monitored container that exists and has exited. *)
Definition exited (cid : string) : ContainerJSON :=
  {| json_ID := cid; json_Running := false |}.

(** A script whose inspections all give one answer. *)
Definition inspectScript (listed : cerror + list Container)
    (inspected : cerror + ContainerJSON) : Script :=
  {| onPull := pullStream None;
     onCreate := inr createdBody;
     onConnect := None;
     onStart := None;
     onList := listed;
     onInspect _ := inspected;
     onDisconnect _ := None;
     onStop _ := None;
     onRemove _ := None;
     cancelAfter := None |}.

Definition listError : cerror := {| cmsg := "error listing containers"; cnotFound := false |}.

(** The message of the panic of an index out of range on an empty slice. *)
Definition outOfRange : string := "index out of range [0] with length 0".

(** A sidecar that the runtime lists without a name. *)
Definition nameless : Container :=
  {| ctr_ID := "exporter009-cid";
     ctr_Names := [];
     ctr_Labels := <[LABEL_EXPORTED_ID := "exported-task009-cid"]> ∅ |}.

(** The options of the listing by name of [CleanupExporter]. *)
Definition byName (exporterName : string) : ListOptions :=
  {| lo_All := false; lo_Filters := [("name", exporterName)] |}.

(** The sidecar container that runs an exporter, as a later listing shows
    it: under the exporter's name, with the bookkeeping labels that
    [createContainer] sets. *)
Definition sidecarOf (cid : string) (e : Exporter) : Container :=
  {| ctr_ID := cid;
     ctr_Names := [Name e];
     ctr_Labels := cfg_Labels (configOf e) |}.

(** A monitored container that the runtime lists without a name. *)
Definition namelessTask : Container :=
  {| ctr_ID := "exported-task003-cid"; ctr_Names := []; ctr_Labels := ∅ |}.

(** The exporter that the test of [FindMissingExporters] expects. *)
Definition missingRedis : Exporter :=
  {| Name := "/exporter.redis.redis";
     ExporterType := "redis";
     Image := "oliver006/redis_exporter:v0.25.0";
     Cmd := [];
     EnvVars := [];
     Port := "9121";
     ExportedTask :=
       {| task_ID := "exported-task002-cid"; task_Name := "/redis"; task_Labels := ∅ |} |}.

(** ** The event listener: the cancellation registry and the dispatch *)

(** A context of the listener: the one it is given, or one that
    [context.WithCancel] derived from a context.  The serial number tells
    apart the contexts derived at different times. *)
Inductive EventCtx :=
| ctxGiven
| ctxWithCancel (serial : nat) (parent : EventCtx).

#[export] Instance EventCtx_eq_dec : EqDecision EventCtx.
Proof. solve_decision. Defined.

(** A [context.CancelFunc], named by the context it cancels. *)
Definition CancelFunc : Type := EventCtx.

(** The state of package [context] as the listener sees it: the serial
    number of the next derived context, and the cancel functions called so
    far, in order. *)
Record CancelWorld := mkCancelWorld {
  nextSerial : nat;
  called : list CancelFunc
}.

(** [context.WithCancel]. *)
Definition WithCancel (ctx : EventCtx) (cw : CancelWorld)
  : EventCtx * CancelFunc * CancelWorld :=
  let derived := ctxWithCancel (nextSerial cw) ctx in
  (derived, derived, mkCancelWorld (S (nextSerial cw)) (called cw)).

(** The call [f()] of a cancel function. *)
Definition callCancel (f : CancelFunc) (cw : CancelWorld) : CancelWorld :=
  mkCancelWorld (nextSerial cw) (called cw ++ [f])%list.

(** Whether a context is done because a cancel function that was called
    cancels it or one of the contexts it derives from. *)
Fixpoint cancelledBy (fs : list CancelFunc) (ctx : EventCtx) : bool :=
  match ctx with
  | ctxGiven => false
  | ctxWithCancel serial parent =>
      bool_decide (ctxWithCancel serial parent ∈ fs) || cancelledBy fs parent
  end.

(** [cancelCollection]: the map of cancel functions.  Its methods take
    the collection by value and lock the mutex of the copy they receive,
    from their first statement to their return; the map is shared by all
    the copies, so each method gives back the collection as it leaves it.
    The methods are modelled as they run one after another: what happens
    when two of them overlap is outside this model. *)
Record cancelCollection := mkCancelCollection {
  funcs : gmap string CancelFunc
}.

Definition newCancelCollection : cancelCollection := mkCancelCollection ∅.

Definition cancel (c : cancelCollection) (k : string) (cw : CancelWorld)
  : cancelCollection * CancelWorld :=
  match funcs c !! k with
  | Some f => (mkCancelCollection (delete k (funcs c)), callCancel f cw)
  | None => (c, cw)
  end.

Definition add (c : cancelCollection) (k : string) (ctx : EventCtx) (cw : CancelWorld)
  : EventCtx * cancelCollection * CancelWorld :=
  let '(derived, f, cw') := WithCancel ctx cw in
  (derived, mkCancelCollection (<[k := f]> (funcs c)), cw').

Definition remove (c : cancelCollection) (k : string) : cancelCollection :=
  match funcs c !! k with
  | Some _ => mkCancelCollection (delete k (funcs c))
  | None => c
  end.

(** [events.Message], the fields the listener reads. *)
Record Message := {
  msg_Type : string;
  msg_Action : string;
  actor_ID : string;
  actor_Attributes : gmap string string
}.

(** A goroutine that the listener starts, with the arguments it is given. *)
Record Job := {
  job_ctx : EventCtx;
  job_evt : Message
}.

(** The state of [ListenEventsForExported] between two turns of its loop:
    the registry, the state of package [context], and the goroutines
    started so far. *)
Record Listener := mkListener {
  cancellables : cancelCollection;
  cancels : CancelWorld;
  spawned : list Job
}.

(** The case [evt := <-evtCh] of the loop of [ListenEventsForExported]. *)
Definition dispatch (ctx : EventCtx) (evt : Message) (l : Listener) : Listener :=
  match actor_Attributes evt !! LABEL_EXPORTED_NAME with
  | Some _ => l
  | None =>
      if negb (String.eqb (msg_Action evt) "start") &&
         negb (String.eqb (msg_Action evt) "die")
      then l
      else
        let '(c, cw) :=
          if String.eqb (msg_Action evt) "start" then
            let '(_, c, cw) := add (cancellables l) (actor_ID evt) ctx (cancels l) in
            (c, cw)
          else if String.eqb (msg_Action evt) "die" then
            cancel (cancellables l) (actor_ID evt) (cancels l)
          else (cancellables l, cancels l) in
        mkListener c cw (spawned l ++ [{| job_ctx := ctx; job_evt := evt |}])%list
  end.

(** What happens next to the listener: an error on the error channel, an
    event on the event channel, or the end of a goroutine, whose last
    statement removes the entry of its actor from the registry. *)
Inductive Incoming :=
| fromErrCh (err : error)
| fromEvtCh (evt : Message)
| jobDone (actorID : string).

(** The loop of [ListenEventsForExported] over what happens, from the state
    [l]: the error it panics with, if any, and the state it is left in. *)
Fixpoint listen (ctx : EventCtx) (incoming : list Incoming) (l : Listener)
  : option error * Listener :=
  match incoming with
  | [] => (None, l)
  | fromErrCh err :: _ => (Some err, l)
  | fromEvtCh evt :: rest => listen ctx rest (dispatch ctx evt l)
  | jobDone actorID :: rest =>
      listen ctx rest
        (mkListener (remove (cancellables l) actorID) (cancels l) (spawned l))
  end.

(** The listener as it starts: an empty registry and no goroutine. *)
Definition startListener (cw : CancelWorld) : Listener :=
  mkListener newCancelCollection cw [].

(** Whether the listener starts a goroutine for an event. *)
Definition handled (evt : Message) : bool :=
  match actor_Attributes evt !! LABEL_EXPORTED_NAME with
  | Some _ => false
  | None => String.eqb (msg_Action evt) "start" || String.eqb (msg_Action evt) "die"
  end.

(** The events of a run of the listener, in order. *)
Fixpoint eventsOf (incoming : list Incoming) : list Message :=
  match incoming with
  | [] => []
  | fromErrCh _ :: _ => []
  | fromEvtCh evt :: rest => (evt :: eventsOf rest)%list
  | jobDone _ :: rest => eventsOf rest
  end.

(** The depth of a context under the given one. *)
Fixpoint depth (ctx : EventCtx) : nat :=
  match ctx with
  | ctxGiven => 0
  | ctxWithCancel _ parent => S (depth parent)
  end.

(** Events of the tests of the listener. *)
Definition startOf (actorID : string) : Message :=
  {| msg_Type := "container"; msg_Action := "start"; actor_ID := actorID;
     actor_Attributes := ∅ |}.

Definition dieOf (actorID : string) : Message :=
  {| msg_Type := "container"; msg_Action := "die"; actor_ID := actorID;
     actor_Attributes := ∅ |}.

(** A cancel function that the registry made for the listener's context
    [ctx] since the state [cw0] of package [context]. *)
Definition madeSince (ctx : EventCtx) (cw0 cw : CancelWorld) (f : CancelFunc) : Prop :=
  exists n, f = ctxWithCancel n ctx /\ (nextSerial cw0 <= n < nextSerial cw).

(** What holds of the listener between two turns of its loop, [extra]
    being the cancel functions called since it started in [cw0]. *)
Definition listenerInv (ctx : EventCtx) (cw0 : CancelWorld) (l : Listener)
    (extra : list CancelFunc) : Prop :=
  called (cancels l) = (called cw0 ++ extra)%list /\
  nextSerial cw0 <= nextSerial (cancels l) /\
  NoDup extra /\
  (forall f, f ∈ extra -> madeSince ctx cw0 (cancels l) f) /\
  (forall k f, funcs (cancellables l) !! k = Some f ->
     madeSince ctx cw0 (cancels l) f /\ f ∉ extra) /\
  (forall k1 k2 f, funcs (cancellables l) !! k1 = Some f ->
     funcs (cancellables l) !! k2 = Some f -> k1 = k2) /\
  Forall (fun j => job_ctx j = ctx) (spawned l) /\
  length extra <= length (List.filter (fun j => String.eqb (msg_Action (job_evt j)) "die")
                                      (spawned l)).

(** A cancel function that is out of the registry's reach: made earlier,
    not called, and not registered. *)
Definition orphan (f : CancelFunc) (l : Listener) : Prop :=
  (exists n p, f = ctxWithCancel n p /\ n < nextSerial (cancels l)) /\
  (f ∉ called (cancels l)) /\
  (forall k, funcs (cancellables l) !! k <> Some f).

(** The action of the last event of a list that the listener handles for
    an actor, if there is one. *)
Fixpoint lastAction (actorID : string) (evts : list Message) : option string :=
  match evts with
  | [] => None
  | evt :: rest =>
      match lastAction actorID rest with
      | Some action => Some action
      | None =>
          if handled evt && String.eqb (actor_ID evt) actorID
          then Some (msg_Action evt)
          else None
      end
  end.

(** Package [context] before any context was derived. *)
Definition freshCancels : CancelWorld := mkCancelWorld 0 [].

(** ** The event listener: the handlers of start and die events *)

(** What the handlers of the listener reach outside the sources at hand,
    over a state [St] of the outside world: the inspection of a container
    by the runtime client, whose answer [J] has a name and labels; the
    template engine (html/template: parsing, then execution against a
    value); the label that names an exporter; the functions of package
    [models] that match a container name with a predefined exporter and
    build that exporter; and the methods [RunExporter],
    [FindAssociatedExporter] and [CleanupExporter] of the backend these
    handlers belong to. *)
Record EventBackend (St J E T : Type) := {
  inspectContainer : EventCtx -> string -> St -> (cerror + J) * St;
  containerName : J -> string;
  containerLabels : J -> gmap string string;
  templateParse : string -> error + T;
  templateExecute : T -> J -> error + string;
  LABEL_EXPORTER_NAME : string;
  FindMatchingExporter : string -> string;
  FromPredefinedExporter : string -> string -> J -> error + E;
  IsErrPredefinedExporterNotFound : error -> bool;
  runExporter : EventCtx -> E -> St -> option error * St;
  FindAssociatedExporter : EventCtx -> string -> St -> (string * bool * option error) * St;
  cleanupExporter : EventCtx -> string -> St -> option error * St
}.
Arguments inspectContainer {St J E T} _ _ _ _.
Arguments containerName {St J E T} _ _.
Arguments containerLabels {St J E T} _ _.
Arguments templateParse {St J E T} _ _.
Arguments templateExecute {St J E T} _ _ _.
Arguments LABEL_EXPORTER_NAME {St J E T} _.
Arguments FindMatchingExporter {St J E T} _ _.
Arguments FromPredefinedExporter {St J E T} _ _ _ _.
Arguments IsErrPredefinedExporterNotFound {St J E T} _ _.
Arguments runExporter {St J E T} _ _ _ _.
Arguments FindAssociatedExporter {St J E T} _ _ _ _.
Arguments cleanupExporter {St J E T} _ _ _.

Section Handlers.
Context {St J E T : Type}.
Variable b : EventBackend St J E T.

Definition renderTpl (tplStr : string) (values : J) : string * option error :=
  match templateParse b tplStr with
  | inl err => ("", Some (errWithStack err))
  | inr tpl =>
      match templateExecute b tpl values with
      | inl err => ("", Some (errWithStack err))
      | inr val => (val, None)
      end
  end.

Definition readLabel (container : J) (label : string) : string * option error :=
  renderTpl (labelOf (containerLabels b container) label) container.

Definition handleContainerStart (ctx : EventCtx) (containerId promNetwrk : string)
    (s : St) : option error * St :=
  match inspectContainer b ctx containerId s with
  | (inl err, s1) =>
      if IsErrNotFound err then (None, s1)
      else (Some (errWithStack (errClient err)), s1)
  | (inr container, s1) =>
      match readLabel container (LABEL_EXPORTER_NAME b) with
      | (_, Some err) => (Some err, s1)
      | (exporterName, None) =>
          let exporterName :=
            if String.eqb exporterName ""
            then FindMatchingExporter b (containerName b container)
            else exporterName in
          if String.eqb exporterName "" then (None, s1)
          else
            match FromPredefinedExporter b exporterName promNetwrk container with
            | inl err =>
                if IsErrPredefinedExporterNotFound b err then (None, s1)
                else (Some err, s1)
            | inr exporter =>
                let (_, s2) := runExporter b ctx exporter s1 in
                (None, s2)
            end
      end
  end.

Definition handleContainerStop (ctx : EventCtx) (containerId : string) (s : St)
  : option error * St :=
  match FindAssociatedExporter b ctx containerId s with
  | (_, _, Some err, s1) => (Some err, s1)
  | (_, false, None, s1) => (None, s1)
  | (exporterID, true, None, s1) => cleanupExporter b ctx exporterID s1
  end.

(** The function [handler] of a goroutine of the listener. *)
Definition handler (ctx : EventCtx) (evt : Message) (promNetwrk : string) (s : St)
  : option error * St :=
  if String.eqb (msg_Action evt) "start" then
    handleContainerStart ctx (actor_ID evt) promNetwrk s
  else if String.eqb (msg_Action evt) "die" then
    handleContainerStop ctx (actor_ID evt) s
  else
    (Some (errNew ("Action " +:+ quoted (msg_Action evt) +:+ " for " +:+ msg_Type evt
                   +:+ " " +:+ quoted (actor_ID evt) +:+ " is not supported.")), s).

(** The goroutine that the listener starts for an event: the handler
    under [retry], then the removal of the actor's entry.  It gives back
    the error that it logs, if any. *)
Definition runJob (j : Job) (promNetwrk : string) (c : cancelCollection)
    (w : RetryWorld St) : option error * RetryWorld St * cancelCollection :=
  let (err, w') := retry 3 5 (handler (job_ctx j) (job_evt j) promNetwrk) w in
  (err, w', remove c (actor_ID (job_evt j))).

End Handlers.

(** The backend [b] with another matching of container names. *)
Definition withMatching {St J E T : Type} (b : EventBackend St J E T)
    (matching : string -> string) : EventBackend St J E T :=
  {| inspectContainer := inspectContainer b;
     containerName := containerName b;
     containerLabels := containerLabels b;
     templateParse := templateParse b;
     templateExecute := templateExecute b;
     LABEL_EXPORTER_NAME := LABEL_EXPORTER_NAME b;
     FindMatchingExporter := matching;
     FromPredefinedExporter := FromPredefinedExporter b;
     IsErrPredefinedExporterNotFound := IsErrPredefinedExporterNotFound b;
     runExporter := runExporter b;
     FindAssociatedExporter := FindAssociatedExporter b;
     cleanupExporter := cleanupExporter b |}.

(** A backend to run examples with.  Its world is the list of what was
    done; a container is its name; a template renders to itself, except
    the template "{{" which does not parse; the only predefined exporter
    is "redis", which matches the containers named "/redis"; running an
    exporter fails. *)
Definition parseError : error := errNew "template: unexpected unclosed action".
Definition runError : error := errNew "error pulling image".
Definition unknownExporter : error := errNew "predefined exporter not found".

Definition exampleEvents (labels : gmap string string)
  : EventBackend (list string) string string string :=
  {| inspectContainer _ containerId s := (inr containerId, (s ++ ["inspect"])%list);
     containerName container := container;
     containerLabels _ := labels;
     templateParse tplStr :=
       if String.eqb tplStr "{{" then inl parseError else inr tplStr;
     templateExecute tpl _ := inr tpl;
     LABEL_EXPORTER_NAME := "autoexporter.exporter";
     FindMatchingExporter name := if String.eqb name "/redis" then "redis" else "";
     FromPredefinedExporter name _ _ :=
       if String.eqb name "redis" then inr "redis" else inl unknownExporter;
     IsErrPredefinedExporterNotFound err :=
       String.eqb (Error err) (Error unknownExporter);
     runExporter _ exporter s := (Some runError, (s ++ ["run " +:+ exporter])%list);
     FindAssociatedExporter _ _ s := (("", false, None), s);
     cleanupExporter _ _ s := (None, s) |}.

(** ** The conflict of container names *)

(** The pattern of [isErrConflict] in three parts: the text
    [The container name] with a space and an opening double quote; the
    class of one or more characters other than a double quote; and a
    closing double quote with the text [is already in use] after a space.
    A byte string without a double quote byte is a sequence of runes other
    than the double quote, and conversely, so the class is read on
    bytes. *)
Definition conflictBefore : string := "The container name " +:+ dquote.
Definition conflictAfter : string := dquote +:+ " is already in use".

(** No double quote in a string. *)
Fixpoint quoteFree (s : string) : bool :=
  match s with
  | EmptyString => true
  | String c s' => negb (Ascii.eqb c (ascii_of_nat 34)) && quoteFree s'
  end.

(** [s] without the prefix [prefix], when it starts with it. *)
Fixpoint stripPrefix (s prefix : string) : option string :=
  match prefix with
  | EmptyString => Some s
  | String a prefix' =>
      match s with
      | EmptyString => None
      | String c s' => if Ascii.eqb c a then stripPrefix s' prefix' else None
      end
  end.

(** The class, then the closing text, at the start of [s]; [seen] tells
    whether a byte of the class was read already. *)
Fixpoint nameThenAfter (s : string) (seen : bool) : bool :=
  match s with
  | EmptyString => false
  | String c s' =>
      if Ascii.eqb c (ascii_of_nat 34) then seen && HasPrefix s conflictAfter
      else nameThenAfter s' true
  end.

(** The pattern at the start of [s]. *)
Definition conflictAt (s : string) : bool :=
  match stripPrefix s conflictBefore with
  | Some rest => nameThenAfter rest false
  | None => false
  end.

(** [regexp.MatchString] for that pattern: a match anywhere in [s]. *)
Fixpoint matchConflict (s : string) : bool :=
  conflictAt s ||
  match s with
  | EmptyString => false
  | String _ s' => matchConflict s'
  end.

Definition isErrConflict (err : error) : bool := matchConflict (Error err).

(** * Properties *)

(** ** The startup pipeline *)

Section Pipeline.
Context {R : Type}.
Variable b : DockerBackend R.
Variable ctx : Context R.
Variable exporter0 : Exporter.

Lemma iteration_cancelled p w :
  ctx (env w) = true -> iteration b ctx exporter0 p w = (Val (inl None), w).
Proof.
  intros Hc. unfold iteration, bind, ctxDone. rewrite Hc. reflexivity.
Qed.

Lemma runLoop_cancelled fuel p w :
  ctx (env w) = true -> runLoop b (S fuel) ctx exporter0 p w = (Val None, w).
Proof.
  intros Hc. simpl. unfold bind at 1. rewrite iteration_cancelled by assumption.
  reflexivity.
Qed.

(** An iteration always returns normally: no panic, no loop bound. *)
Lemma iteration_val p w :
  exists r w1, iteration b ctx exporter0 p w = (Val r, w1).
Proof.
  unfold iteration, bind, ctxDone.
  destruct (ctx (env w)); [eauto |].
  destruct (String.eqb (step p) stepPullImage).
  { unfold pullImage, bind, invoke, ret.
    destruct (ImagePull _ _) as [[e | [e |]] r]; simpl; eauto. }
  destruct (String.eqb (step p) stepCreate).
  { unfold createContainer, bind, invoke, ret.
    destruct (ContainerCreate _ _ _ _) as [[e | body] r]; simpl; eauto. }
  destruct (String.eqb (step p) stepConnect).
  { unfold connectToNetwork, bind, invoke, ret.
    destruct (NetworkConnect _ _ _) as [[e |] r]; simpl;
      [destruct (Contains _ _) |]; simpl; eauto. }
  destruct (String.eqb (step p) stepStart).
  { unfold startContainer, bind, invoke, ret.
    destruct (ContainerStart _ _) as [[e |] r]; simpl; eauto. }
  destruct (String.eqb (step p) stepFinished); simpl; eauto.
Qed.

(** What an iteration that goes round has done. *)
Lemma iteration_continue p w p1 w1 :
  iteration b ctx exporter0 p w = (Val (inr p1), w1) ->
  ctx (env w) = false /\ exporter p1 = exporter p /\
  ((step p = stepPullImage /\ step p1 = stepCreate /\ exporterCID p1 = exporterCID p /\
    calls w1 = (calls w ++ [pullCall exporter0])%list) \/
   (step p = stepCreate /\ step p1 = stepConnect /\
    calls w1 = (calls w ++ [createCall (exporter p)])%list) \/
   (step p = stepConnect /\ step p1 = stepStart /\ exporterCID p1 = exporterCID p /\
    calls w1 = (calls w ++ [connectCall b (exporterCID p)])%list) \/
   (step p = stepStart /\ step p1 = stepFinished /\ exporterCID p1 = exporterCID p /\
    calls w1 = (calls w ++ [startCall (exporterCID p)])%list)).
Proof.
  unfold iteration, bind, ctxDone.
  destruct (ctx (env w)); [discriminate |].
  destruct (String.eqb (step p) stepPullImage) eqn:E1.
  { apply String.eqb_eq in E1. unfold pullImage, bind, invoke, ret.
    destruct (ImagePull _ _) as [[e | [e |]] r]; simpl; intros [= <- <-];
      simpl; auto 10. }
  destruct (String.eqb (step p) stepCreate) eqn:E2.
  { apply String.eqb_eq in E2. unfold createContainer, bind, invoke, ret.
    destruct (ContainerCreate _ _ _ _) as [[e | body] r]; simpl; intros [= <- <-];
      simpl; auto 10. }
  destruct (String.eqb (step p) stepConnect) eqn:E3.
  { apply String.eqb_eq in E3. unfold connectToNetwork, bind, invoke, ret.
    destruct (NetworkConnect _ _ _) as [[e |] r]; simpl;
      [destruct (Contains _ _) |]; simpl; intros [= <- <-]; simpl; auto 10. }
  destruct (String.eqb (step p) stepStart) eqn:E4.
  { apply String.eqb_eq in E4. unfold startContainer, bind, invoke, ret.
    destruct (ContainerStart _ _) as [[e |] r]; simpl; intros [= <- <-];
      simpl; auto 10. }
  destruct (String.eqb (step p) stepFinished); discriminate.
Qed.

Lemma rank_pos s : 1 <= rank s.
Proof. unfold rank. repeat case_match; lia. Qed.

Lemma iteration_rank p w p1 w1 :
  iteration b ctx exporter0 p w = (Val (inr p1), w1) ->
  rank (step p1) < rank (step p).
Proof.
  intros H. apply iteration_continue in H.
  destruct H as (_ & _ & [H | [H | [H | H]]]);
    (destruct H as (-> & -> & _)); vm_compute; lia.
Qed.

(** With as much fuel as the rank of its step, the loop returns. *)
Lemma runLoop_returns fuel : forall p w,
  rank (step p) <= fuel ->
  exists r w', runLoop b fuel ctx exporter0 p w = (Val r, w').
Proof.
  induction fuel as [| fuel IH]; intros p w Hr.
  - pose proof (rank_pos (step p)). lia.
  - simpl. unfold bind at 1.
    destruct (iteration_val p w) as ([err | p1] & w1 & Hit); rewrite Hit.
    + eauto.
    + apply IH. apply iteration_rank in Hit. lia.
Qed.

Lemma reaches_runLoop p w p' w' :
  reaches b ctx exporter0 p w p' w' ->
  forall fuel, rank (step p) <= fuel ->
  exists fuel', rank (step p') <= fuel' /\
    runLoop b fuel ctx exporter0 p w = runLoop b fuel' ctx exporter0 p' w'.
Proof.
  induction 1 as [p w | p w p1 w1 p2 w2 Hit _ IH]; intros fuel Hr.
  - eauto.
  - destruct fuel as [| fuel]; [pose proof (rank_pos (step p)); lia |].
    destruct (IH fuel) as (fuel' & Hr' & Heq).
    { apply iteration_rank in Hit. lia. }
    exists fuel'. split; [assumption |].
    rewrite <- Heq. simpl. unfold bind at 1. rewrite Hit. reflexivity.
Qed.

(** The trace at a step boundary, from the process found there. *)
Lemma reaches_calls p w p' w' :
  reaches b ctx exporter0 p w p' w' ->
  forall w0 : World R,
    exporter p = exporter0 ->
    calls w = (calls w0 ++ callsBefore b exporter0 p)%list ->
    calls w' = (calls w0 ++ callsBefore b exporter0 p')%list.
Proof.
  induction 1 as [p w | p w p1 w1 p2 w2 Hit _ IH]; intros w0 He Hc.
  - assumption.
  - apply iteration_continue in Hit.
    destruct Hit as (_ & He1 & Hcase). apply (IH w0).
    + congruence.
    + destruct Hcase as [H | [H | [H | H]]].
      * destruct H as (Hs & Hs1 & _ & ->). rewrite Hc.
        unfold callsBefore. rewrite Hs, Hs1. simpl. rewrite app_nil_r. reflexivity.
      * destruct H as (Hs & Hs1 & ->). rewrite Hc, He.
        unfold callsBefore. rewrite Hs, Hs1. simpl.
        rewrite <- app_assoc. reflexivity.
      * destruct H as (Hs & Hs1 & Hcid & ->). rewrite Hc.
        unfold callsBefore. rewrite Hs, Hs1, Hcid. simpl.
        rewrite <- app_assoc. reflexivity.
      * destruct H as (Hs & Hs1 & Hcid & ->). rewrite Hc.
        unfold callsBefore. rewrite Hs, Hs1, Hcid. simpl.
        rewrite <- app_assoc. reflexivity.
Qed.

(** [RunExporter] always returns: its loop bound is never reached, and it
    does not panic. *)
Lemma RunExporter_returns w :
  exists r w', RunExporter b ctx exporter0 w = (Val r, w').
Proof. apply runLoop_returns. vm_compute. lia. Qed.

End Pipeline.

(** Unfolds the monadic plumbing of the backend's methods. *)
Ltac unfold_backend :=
  unfold RunExporter, startProcess, iteration, pullImage, createContainer,
    connectToNetwork, startContainer, stopExporter, resolveExporters,
    newErrExportedTaskStillRunning,
    configOf, hostConfigOf, pullCall, createCall, connectCall, startCall,
    bind, invoke, ctxDone, ret, panic, first in *.

(** Replays a run of the backend from the answers named in the context. *)
Ltac replay :=
  repeat (simpl in *;
          match goal with
          | H : ?l = _ |- context [?l] => rewrite H
          end);
  simpl in *.

(** C2. The success path: when the context is not cancelled at any step
    boundary and the pull, the create, the connect and the start all
    succeed, [RunExporter] returns no error and has issued exactly these
    four calls, in this order; the container is created in the network
    namespace "container:<id>" of the monitored task, labelled with the
    task's id and name, with the restart policy on-failure, 10 retries. *)
Theorem RunExporter_success {R : Type} (b : DockerBackend R) (ctx : Context R)
    (e : Exporter) (tr : list Call) (r0 r1 r2 r3 r4 : R) (body : CreatedBody) :
  ctx r0 = false ->
  ImagePull (APIClient := cli b) (Image e) r0 = (pullStream None, r1) ->
  ctx r1 = false ->
  ContainerCreate (APIClient := cli b) (configOf e) (hostConfigOf e) (Name e) r1
    = (inr body, r2) ->
  ctx r2 = false ->
  NetworkConnect (APIClient := cli b) (promNetwork b) (created_ID body) r2 = (None, r3) ->
  ctx r3 = false ->
  ContainerStart (APIClient := cli b) (created_ID body) r3 = (None, r4) ->
  RunExporter b ctx e (mkWorld r0 tr)
    = (Val None,
       mkWorld r4
         (tr ++ [CallImagePull (Image e);
                 CallContainerCreate (configOf e) (hostConfigOf e) (Name e);
                 CallNetworkConnect (promNetwork b) (created_ID body);
                 CallContainerStart (created_ID body)])%list) /\
  hc_NetworkMode (hostConfigOf e) = "container:" +:+ task_ID (ExportedTask e) /\
  hc_RestartPolicy (hostConfigOf e)
    = {| rp_Name := "on-failure"; rp_MaximumRetryCount := 10 |} /\
  cfg_Labels (configOf e) !! LABEL_EXPORTED_ID = Some (task_ID (ExportedTask e)) /\
  cfg_Labels (configOf e) !! LABEL_EXPORTED_NAME = Some (task_Name (ExportedTask e)) /\
  cfg_Image (configOf e) = Image e /\
  cfg_Cmd (configOf e) = Cmd e /\
  cfg_Env (configOf e) = EnvVars e.
Proof.
  intros Hc0 Hpull Hc1 Hcreate Hc2 Hconnect Hc3 Hstart.
  split; [| repeat split].
  - unfold_backend. simpl runLoop. unfold_backend. replay.
    destruct (ctx r4); simpl; repeat rewrite <- app_assoc; reflexivity.
Qed.

Lemma RunExporter_success_witness :
  RunExporter testBackend fakeCtx redisExporter (fakeWorld okScript 0 [])
    = (Val None,
       fakeWorld okScript 4
         [CallImagePull "oliver006/redis_exporter:latest";
          CallContainerCreate (configOf redisExporter) (hostConfigOf redisExporter)
            "exporter004";
          CallNetworkConnect "testnet" "9d234f";
          CallContainerStart "9d234f"]).
Proof.
  apply (RunExporter_success testBackend fakeCtx redisExporter []
           (okScript, 0) (okScript, 1) (okScript, 2) (okScript, 3) (okScript, 4)
           {| created_ID := "9d234f"; created_Warnings := [] |});
    reflexivity.
Defined.

(** C1, as the code has it. Whenever the loop of [RunExporter] comes to a
    step boundary with its context cancelled (which takes every step before
    that boundary to have returned no error), [RunExporter] returns no
    error and ends in the world of that boundary: no further call is
    issued.  The calls issued are those of the steps before the boundary;
    when the boundary is the one before the pull, the create or the
    connect step, there is no network-connect and no container-start call
    among them. *)
Theorem RunExporter_cancelled_at_boundary {R : Type} (b : DockerBackend R)
    (ctx : Context R) (e : Exporter) (w : World R) (p : process) (w' : World R) :
  reaches b ctx e (startProcess e) w p w' ->
  ctx (env w') = true ->
  RunExporter b ctx e w = (Val None, w') /\
  calls w' = (calls w ++ callsBefore b e p)%list /\
  (step p = stepPullImage \/ step p = stepCreate \/ step p = stepConnect ->
   forall c, In c (callsBefore b e p) ->
     (forall networkID cid, c <> CallNetworkConnect networkID cid) /\
     (forall cid, c <> CallContainerStart cid)).
Proof.
  intros Hreach Hdone. split; [| split].
  - unfold RunExporter. fold (startProcess e).
    destruct (reaches_runLoop b ctx e _ _ _ _ Hreach 8) as (fuel' & Hr & ->).
    { vm_compute. lia. }
    destruct fuel' as [| fuel']; [pose proof (rank_pos (step p)); lia |].
    apply runLoop_cancelled. assumption.
  - apply (reaches_calls b ctx e _ _ _ _ Hreach w).
    + reflexivity.
    + unfold callsBefore. simpl. rewrite app_nil_r. reflexivity.
  - intros Hstep c Hin. unfold callsBefore in Hin.
    destruct Hstep as [Hs | [Hs | Hs]]; rewrite Hs in Hin; simpl in Hin;
      intuition (subst; discriminate).
Qed.

Lemma RunExporter_cancelled_at_boundary_witness :
  RunExporter testBackend fakeCtx redisExporter (fakeWorld cancelInCreate 0 [])
    = (Val None,
       fakeWorld cancelInCreate 2
         [CallImagePull "oliver006/redis_exporter:latest";
          CallContainerCreate (configOf redisExporter) (hostConfigOf redisExporter)
            "exporter004"]).
Proof.
  apply (RunExporter_cancelled_at_boundary testBackend fakeCtx redisExporter
           (fakeWorld cancelInCreate 0 [])
           {| exporter := redisExporter; step := stepConnect; exporterCID := "9d234f" |}).
  - eapply reaches_next; [vm_compute; reflexivity |].
    eapply reaches_next; [vm_compute; reflexivity |].
    apply reaches_here.
  - reflexivity.
Defined.

(** C1, as stated, fails: the context is cancelled while the image is
    pulled, before the pipeline is finished, and the pull fails; the
    pipeline returns the error of the pull, not nil. *)
Lemma RunExporter_cancelled_returns_error :
  fakeCtx (env (fakeWorld cancelInFailingPull 0 [])) = false /\
  RunExporter testBackend fakeCtx redisExporter (fakeWorld cancelInFailingPull 0 [])
    = (Val (Some (errWithStack (errClient contextCanceled))),
       fakeWorld cancelInFailingPull 1 [CallImagePull "oliver006/redis_exporter:latest"]) /\
  fakeCtx (env (fakeWorld cancelInFailingPull 1
                  [CallImagePull "oliver006/redis_exporter:latest"])) = true /\
  Some (errWithStack (errClient contextCanceled)) <> None.
Proof.
  split; [reflexivity |]. split; [vm_compute; reflexivity |].
  split; [reflexivity | discriminate].
Qed.

(** C7. The connect step, reached with the image pulled and the container
    created: when the network-connect call fails with an error whose
    message contains "endpoint with name", the step counts as a success and
    the pipeline goes on to start the container (its result is the
    start's); with any other error the pipeline stops there and returns
    that error under a recorded stack, its message and its cause being the
    client's. *)
Theorem RunExporter_connect_error {R : Type} (b : DockerBackend R) (ctx : Context R)
    (e : Exporter) (tr : list Call) (r0 r1 r2 r3 r4 : R) (body : CreatedBody)
    (err : cerror) (res : option cerror) :
  ctx r0 = false ->
  ImagePull (APIClient := cli b) (Image e) r0 = (pullStream None, r1) ->
  ctx r1 = false ->
  ContainerCreate (APIClient := cli b) (configOf e) (hostConfigOf e) (Name e) r1
    = (inr body, r2) ->
  ctx r2 = false ->
  NetworkConnect (APIClient := cli b) (promNetwork b) (created_ID body) r2
    = (Some err, r3) ->
  ContainerStart (APIClient := cli b) (created_ID body) r3 = (res, r4) ->
  (Contains (cmsg err) "endpoint with name" = true ->
   connectToNetwork b e (created_ID body) (mkWorld r2 tr)
     = (Val None, mkWorld r3 (tr ++ [CallNetworkConnect (promNetwork b) (created_ID body)])%list) /\
   (ctx r3 = false ->
    RunExporter b ctx e (mkWorld r0 tr)
      = (Val (stacked res),
         mkWorld r4
           (tr ++ [CallImagePull (Image e);
                   CallContainerCreate (configOf e) (hostConfigOf e) (Name e);
                   CallNetworkConnect (promNetwork b) (created_ID body);
                   CallContainerStart (created_ID body)])%list))) /\
  (Contains (cmsg err) "endpoint with name" = false ->
   RunExporter b ctx e (mkWorld r0 tr)
     = (Val (Some (errWithStack (errClient err))),
        mkWorld r3
          (tr ++ [CallImagePull (Image e);
                  CallContainerCreate (configOf e) (hostConfigOf e) (Name e);
                  CallNetworkConnect (promNetwork b) (created_ID body)])%list) /\
   Error (errWithStack (errClient err)) = cmsg err /\
   Cause (errWithStack (errClient err)) = errClient err).
Proof.
  intros Hc0 Hpull Hc1 Hcreate Hc2 Hconnect Hstart.
  split; intros Hmsg.
  - split; [| intros Hc3].
    + unfold_backend. replay. reflexivity.
    + unfold_backend. simpl runLoop. unfold_backend. replay.
      destruct res; simpl; destruct (ctx r4); simpl;
        repeat rewrite <- app_assoc; reflexivity.
  - split; [| split; reflexivity].
    unfold_backend. simpl runLoop. unfold_backend. replay.
    repeat rewrite <- app_assoc. reflexivity.
Qed.

Lemma RunExporter_connect_error_witness :
  RunExporter testBackend fakeCtx redisExporter (fakeWorld (connectFails alreadyConnected) 0 [])
    = (Val None,
       fakeWorld (connectFails alreadyConnected) 4
         [CallImagePull "oliver006/redis_exporter:latest";
          CallContainerCreate (configOf redisExporter) (hostConfigOf redisExporter)
            "exporter004";
          CallNetworkConnect "testnet" "9d234f";
          CallContainerStart "9d234f"]) /\
  RunExporter testBackend fakeCtx redisExporter (fakeWorld (connectFails connectError) 0 [])
    = (Val (Some (errWithStack (errClient connectError))),
       fakeWorld (connectFails connectError) 3
         [CallImagePull "oliver006/redis_exporter:latest";
          CallContainerCreate (configOf redisExporter) (hostConfigOf redisExporter)
            "exporter004";
          CallNetworkConnect "testnet" "9d234f"]).
Proof.
  split.
  - refine (proj2 (proj1 (RunExporter_connect_error testBackend fakeCtx redisExporter []
             (connectFails alreadyConnected, 0) (connectFails alreadyConnected, 1)
             (connectFails alreadyConnected, 2) (connectFails alreadyConnected, 3)
             (connectFails alreadyConnected, 4)
             {| created_ID := "9d234f"; created_Warnings := [] |}
             alreadyConnected None _ _ _ _ _ _ _) _) _); reflexivity.
  - refine (proj1 (proj2 (RunExporter_connect_error testBackend fakeCtx redisExporter []
             (connectFails connectError, 0) (connectFails connectError, 1)
             (connectFails connectError, 2) (connectFails connectError, 3)
             (connectFails connectError, 4)
             {| created_ID := "9d234f"; created_Warnings := [] |}
             connectError None _ _ _ _ _ _ _) _)); reflexivity.
Defined.

(** ** Exporter names *)

Lemma TrimLeft_slashes (n : string) :
  exists j, n = slashes j +:+ TrimLeft n "/" /\ HasPrefix (TrimLeft n "/") "/" = false.
Proof.
  induction n as [| c n IH].
  - exists 0. split; reflexivity.
  - simpl. destruct (Ascii.eqb c "/") eqn:Ec; simpl.
    + apply Ascii.eqb_eq in Ec. subst c.
      destruct IH as (j & Hj & Hp). exists (S j).
      split; [| exact Hp].
      change (String "/" n = String "/" (slashes j +:+ TrimLeft n "/")).
      congruence.
    + exists 0. split; [reflexivity |].
      simpl. rewrite Ec. reflexivity.
Qed.

Lemma foldl_snoc_map {A B : Type} (g : A -> B) (l : list A) : forall acc : list B,
  foldl (fun exporters x => (exporters ++ [g x])%list) acc l = (acc ++ map g l)%list.
Proof.
  induction l as [| x l IH]; intros acc; simpl.
  - rewrite app_nil_r. reflexivity.
  - rewrite IH, <- app_assoc. reflexivity.
Qed.

(** What [resolveExporters] returns: the catalog's matches, in the order of
    the range, each named after its key and the task. *)
Lemma resolveExporters_eq {R : Type} {order : MapRange} (b : DockerBackend R)
    (t : TaskToExport) (w : World R) :
  resolveExporters b t w
    = (Val (map (fun km : string * Exporter =>
                   withName (snd km) (getExporterName (fst km) (task_Name t)))
                (mapRange (fst (FindMatchingExporters (ExporterFinder := finder b) t)))),
       mkWorld (env w) (calls w ++ [CallFindMatchingExporters t])%list).
Proof.
  unfold resolveExporters, bind, invoke, ret. simpl.
  rewrite foldl_snoc_map. reflexivity.
Qed.

Lemma elem_of_mapRange {order : MapRange} {V : Type} (m : gmap string V) k v :
  (k, v) ∈ mapRange m <-> m !! k = Some v.
Proof. rewrite (mapRange_perm V m). apply elem_of_map_to_list. Qed.

(** C3, as the code has it. The computed name is "/exporter." followed by
    the catalog key, a dot and the task name without its leading slashes:
    it starts with a slash, as the names of a container listing do.  The
    task name is some slashes followed by the trimmed name, which does not
    start with a slash.  Resolving a task gives, for each catalog entry
    that matches it, that entry under this name, whatever the order in
    which the matches are ranged over and whatever the state of the world:
    two resolutions of the same task yield the same exporters under the
    same names. *)
Theorem getExporterName_deterministic {R : Type} (o1 o2 : MapRange)
    (b : DockerBackend R) (k n : string) (t : TaskToExport) (w1 w2 : World R) :
  getExporterName k n = "/exporter." +:+ k +:+ "." +:+ TrimLeft n "/" /\
  (exists j, n = slashes j +:+ TrimLeft n "/" /\ HasPrefix (TrimLeft n "/") "/" = false) /\
  exists es1 es2 w1' w2',
    resolveExporters (order := o1) b t w1 = (Val es1, w1') /\
    resolveExporters (order := o2) b t w2 = (Val es2, w2') /\
    (forall e, e ∈ es1 <-> e ∈ es2) /\
    (forall e, e ∈ es1 <->
       exists pname m,
         fst (FindMatchingExporters (ExporterFinder := finder b) t) !! pname = Some m /\
         e = withName m ("/exporter." +:+ pname +:+ "." +:+ TrimLeft (task_Name t) "/")).
Proof.
  split; [reflexivity |]. split; [apply TrimLeft_slashes |].
  do 4 eexists.
  split; [apply resolveExporters_eq |]. split; [apply resolveExporters_eq |].
  assert (Hchar : forall (o : MapRange) e,
             e ∈ map (fun km : string * Exporter =>
                        withName (snd km) (getExporterName (fst km) (task_Name t)))
                     (mapRange (MapRange := o)
                        (fst (FindMatchingExporters (ExporterFinder := finder b) t))) <->
             exists pname m,
               fst (FindMatchingExporters (ExporterFinder := finder b) t) !! pname = Some m /\
               e = withName m ("/exporter." +:+ pname +:+ "." +:+ TrimLeft (task_Name t) "/")).
  { intros o e. rewrite list_elem_of_fmap. split.
    - intros ([pname m] & -> & Hin). apply elem_of_mapRange in Hin.
      exists pname, m. split; [exact Hin | reflexivity].
    - intros (pname & m & Hm & ->). exists (pname, m).
      split; [reflexivity | apply elem_of_mapRange; exact Hm]. }
  split.
  - intros e. rewrite (Hchar o1), (Hchar o2). reflexivity.
  - apply Hchar.
Qed.

(** C3, as stated, fails: the computed name starts with a slash. *)
Lemma getExporterName_leading_slash :
  getExporterName "redis" "/redis" = "/exporter.redis.redis" /\
  getExporterName "redis" "/redis" <> "exporter." +:+ "redis" +:+ "." +:+ TrimLeft "/redis" "/".
Proof. split; [reflexivity | discriminate]. Qed.

(** ** Teardown *)

(** [stopExporter] when the monitored container is inspected as running and
    the teardown is not forced. *)
Lemma stopExporter_refuses {R : Type} (b : DockerBackend R) (exporter : Container)
    (tr : list Call) (r1 r2 : R) (exported : ContainerJSON) :
  ContainerInspect (APIClient := cli b) (labelOf (ctr_Labels exporter) LABEL_EXPORTED_ID) r1
    = (inr exported, r2) ->
  json_Running exported = true ->
  stopExporter b exporter false (mkWorld r1 tr)
    = (Val (Some (errExportedTaskStillRunning (ctr_ID exporter)
                    (labelOf (ctr_Labels exporter) LABEL_EXPORTED_ID))),
       mkWorld r2
         (tr ++ [CallContainerInspect (labelOf (ctr_Labels exporter) LABEL_EXPORTED_ID)])%list).
Proof.
  intros Hinspect Hrun. unfold_backend. replay. reflexivity.
Qed.

(** [stopExporter] when it goes on to the sidecar. *)
Lemma stopExporter_proceeds {R : Type} (b : DockerBackend R) (exporter : Container)
    (force : bool) (tr : list Call) (r1 r2 r3 r4 r5 : R)
    (inspected : cerror + ContainerJSON) (d s rm : option cerror) :
  ContainerInspect (APIClient := cli b) (labelOf (ctr_Labels exporter) LABEL_EXPORTED_ID) r1
    = (inspected, r2) ->
  match inspected with
  | inl err => IsErrNotFound err = true
  | inr exported => json_Running exported && negb force = false
  end ->
  NetworkDisconnect (APIClient := cli b) (promNetwork b) (ctr_ID exporter) force r2 = (d, r3) ->
  ContainerStop (APIClient := cli b) (ctr_ID exporter) r3 = (s, r4) ->
  ContainerRemove (APIClient := cli b) (ctr_ID exporter) force r4 = (rm, r5) ->
  ctr_Names exporter <> [] ->
  stopExporter b exporter force (mkWorld r1 tr)
    = match d, s with
      | Some e, _ =>
          (Val (Some (errWithStack (errClient e))),
           mkWorld r3
             (tr ++ [CallContainerInspect (labelOf (ctr_Labels exporter) LABEL_EXPORTED_ID);
                     CallNetworkDisconnect (promNetwork b) (ctr_ID exporter) force])%list)
      | None, Some e =>
          (Val (Some (errWithStack (errClient e))),
           mkWorld r4
             (tr ++ [CallContainerInspect (labelOf (ctr_Labels exporter) LABEL_EXPORTED_ID);
                     CallNetworkDisconnect (promNetwork b) (ctr_ID exporter) force;
                     CallContainerStop (ctr_ID exporter)])%list)
      | None, None =>
          (Val (stacked rm),
           mkWorld r5
             (tr ++ [CallContainerInspect (labelOf (ctr_Labels exporter) LABEL_EXPORTED_ID);
                     CallNetworkDisconnect (promNetwork b) (ctr_ID exporter) force;
                     CallContainerStop (ctr_ID exporter);
                     CallContainerRemove (ctr_ID exporter) force])%list)
      end.
Proof.
  intros Hinspect Hgo Hd Hs Hrm Hnames.
  destruct (ctr_Names exporter) as [| n ns] eqn:En; [congruence |].
  destruct inspected as [err | exported], d as [ed |], s as [es |], rm as [erm |];
    unfold_backend; replay; rewrite ?En; simpl;
    repeat rewrite <- app_assoc; reflexivity.
Qed.

(** [stopExporter] on a sidecar that has a name always returns: every
    run of the bulk teardown below is made of such returns. *)
Lemma stopExporter_returns {R : Type} (b : DockerBackend R) (exporter : Container)
    (force : bool) (w : World R) :
  ctr_Names exporter <> [] ->
  exists result w', stopExporter b exporter force w = (Val result, w').
Proof.
  intros Hnames. destruct (ctr_Names exporter) as [| n ns] eqn:En; [congruence |].
  unfold_backend. rewrite En.
  destruct (ContainerInspect _ _) as [[err | exported] r2]; simpl;
    [destruct (negb (IsErrNotFound err)) | destruct (json_Running exported && negb force)];
    simpl; eauto;
    (destruct (NetworkDisconnect _ _ _ _) as [[ed |] r3]; simpl; eauto;
     destruct (ContainerStop _ _) as [[es |] r4]; simpl; eauto;
     destruct (ContainerRemove _ _ _) as [[erm |] r5]; simpl; eauto).
Qed.

(** C4. A single teardown that finds its sidecar, whose monitored container
    is inspected as running or is reported as not found.  Inspected as
    running and not forced, the teardown fails with the still-running
    error, which carries and names the id of the sidecar and the id of the
    monitored container, and nothing is called after the inspection.
    Forced, or with the monitored container not found, it disconnects the
    sidecar from the monitoring network, stops it and removes it, each call
    being made when the one before succeeded, and [force] is passed to the
    removal (and to the disconnection). *)
Theorem CleanupExporter_still_running {R : Type} (b : DockerBackend R)
    (exporterName : string) (force : bool) (exporter : Container) (tr : list Call)
    (r0 r1 r2 r3 r4 r5 : R) (inspected : cerror + ContainerJSON) (d s rm : option cerror) :
  ContainerList (APIClient := cli b)
    {| lo_All := false; lo_Filters := [("name", exporterName)] |} r0
    = (inr [exporter], r1) ->
  ContainerInspect (APIClient := cli b) (labelOf (ctr_Labels exporter) LABEL_EXPORTED_ID) r1
    = (inspected, r2) ->
  match inspected with
  | inl err => IsErrNotFound err = true
  | inr exported => json_Running exported = true
  end ->
  NetworkDisconnect (APIClient := cli b) (promNetwork b) (ctr_ID exporter) force r2 = (d, r3) ->
  ContainerStop (APIClient := cli b) (ctr_ID exporter) r3 = (s, r4) ->
  ContainerRemove (APIClient := cli b) (ctr_ID exporter) force r4 = (rm, r5) ->
  ctr_Names exporter <> [] ->
  CleanupExporter b exporterName force (mkWorld r0 tr)
    = match inspected, force, d, s with
      | inr _, false, _, _ =>
          (Val (Some (errExportedTaskStillRunning (ctr_ID exporter)
                        (labelOf (ctr_Labels exporter) LABEL_EXPORTED_ID))),
           mkWorld r2 (tr ++ lookupCalls exporterName exporter)%list)
      | _, _, Some e, _ =>
          (Val (Some (errWithStack (errClient e))),
           mkWorld r3
             (tr ++ lookupCalls exporterName exporter ++
                [CallNetworkDisconnect (promNetwork b) (ctr_ID exporter) force])%list)
      | _, _, None, Some e =>
          (Val (Some (errWithStack (errClient e))),
           mkWorld r4
             (tr ++ lookupCalls exporterName exporter ++
                [CallNetworkDisconnect (promNetwork b) (ctr_ID exporter) force;
                 CallContainerStop (ctr_ID exporter)])%list)
      | _, _, None, None =>
          (Val (stacked rm),
           mkWorld r5
             (tr ++ lookupCalls exporterName exporter ++
                [CallNetworkDisconnect (promNetwork b) (ctr_ID exporter) force;
                 CallContainerStop (ctr_ID exporter);
                 CallContainerRemove (ctr_ID exporter) force])%list)
      end /\
  Error (errExportedTaskStillRunning (ctr_ID exporter)
           (labelOf (ctr_Labels exporter) LABEL_EXPORTED_ID))
    = "Exporter " +:+ quoted (ctr_ID exporter) +:+
      " can't be stopped, exported container " +:+
      quoted (labelOf (ctr_Labels exporter) LABEL_EXPORTED_ID) +:+ " still running.".
Proof.
  intros Hlist Hinspect Hcase Hd Hs Hrm Hnames. split; [| reflexivity].
  unfold CleanupExporter, bind, invoke. simpl. rewrite Hlist.
  destruct inspected as [err | exported]; [| destruct force].
  - rewrite (stopExporter_proceeds b exporter force _ r1 r2 r3 r4 r5 (inl err) d s rm)
      by assumption.
    destruct d, s; unfold lookupCalls; simpl; repeat rewrite <- app_assoc; reflexivity.
  - rewrite (stopExporter_proceeds b exporter true _ r1 r2 r3 r4 r5 (inr exported) d s rm);
      try assumption.
    + destruct d, s; unfold lookupCalls; simpl; repeat rewrite <- app_assoc; reflexivity.
    + simpl. apply andb_false_r.
  - rewrite (stopExporter_refuses b exporter _ r1 r2 exported) by assumption.
    unfold lookupCalls. simpl. repeat rewrite <- app_assoc. reflexivity.
Qed.

Lemma CleanupExporter_still_running_witness :
  CleanupExporter testBackend "exporter001" false
      (fakeWorld (teardownScript [sidecar "001"] notFound) 0 [])
    = (Val (Some (errExportedTaskStillRunning "exporter001-cid" "exported-task001-cid")),
       fakeWorld (teardownScript [sidecar "001"] notFound) 2
         (lookupCalls "exporter001" (sidecar "001"))) /\
  CleanupExporter testBackend "exporter001" true
      (fakeWorld (teardownScript [sidecar "001"] notFound) 0 [])
    = (Val None,
       fakeWorld (teardownScript [sidecar "001"] notFound) 5
         (lookupCalls "exporter001" (sidecar "001") ++
          [CallNetworkDisconnect "testnet" "exporter001-cid" true;
           CallContainerStop "exporter001-cid";
           CallContainerRemove "exporter001-cid" true])%list).
Proof.
  split.
  - refine (proj1 (CleanupExporter_still_running testBackend "exporter001" false
                     (sidecar "001") []
                     (teardownScript [sidecar "001"] notFound, 0)
                     (teardownScript [sidecar "001"] notFound, 1)
                     (teardownScript [sidecar "001"] notFound, 2)
                     (teardownScript [sidecar "001"] notFound, 3)
                     (teardownScript [sidecar "001"] notFound, 4)
                     (teardownScript [sidecar "001"] notFound, 5)
                     (inr (running "exported-task001-cid")) None None None
                     _ _ _ _ _ _ _));
      try reflexivity; discriminate.
  - refine (proj1 (CleanupExporter_still_running testBackend "exporter001" true
                     (sidecar "001") []
                     (teardownScript [sidecar "001"] notFound, 0)
                     (teardownScript [sidecar "001"] notFound, 1)
                     (teardownScript [sidecar "001"] notFound, 2)
                     (teardownScript [sidecar "001"] notFound, 3)
                     (teardownScript [sidecar "001"] notFound, 4)
                     (teardownScript [sidecar "001"] notFound, 5)
                     (inr (running "exported-task001-cid")) None None None
                     _ _ _ _ _ _ _));
      try reflexivity; discriminate.
Defined.

(** The loop of [CleanupExporters] over sidecars whose teardowns all
    succeed or are refused: it goes through the whole list and ends with
    the aggregate of the names collected. *)
Lemma cleanupLoop_all {R : Type} (b : DockerBackend R) (force : bool)
    (w : World R) (exporters : list Container) (results : list (option error))
    (w' : World R) :
  teardowns b force w exporters results w' ->
  Forall doneOrRefused results ->
  Forall (fun exporter => ctr_Names exporter <> []) exporters ->
  forall failed,
    cleanupLoop b force exporters failed w
      = (Val (aggregate (failed ++ refused exporters results)), w').
Proof.
  induction 1 as [w | w exporter rest result w1 results w2 Hstop _ IH];
    intros Hres Hnamed failed.
  - simpl. rewrite app_nil_r. destruct failed; reflexivity.
  - inversion Hres as [| ? ? Hr Hres']; subst.
    inversion Hnamed as [| ? ? Hn Hnamed']; subst.
    simpl. unfold bind at 1. rewrite Hstop.
    destruct result as [e |]; simpl in *.
    + rewrite Hr. simpl.
      destruct (ctr_Names exporter) as [| n ns]; [congruence |].
      unfold bind, first, ret. simpl.
      rewrite (IH Hres' Hnamed'), <- app_assoc. reflexivity.
    + apply (IH Hres' Hnamed').
Qed.

(** The loop of [CleanupExporters] when a teardown fails otherwise: it
    returns that error there and then. *)
Lemma cleanupLoop_abort {R : Type} (b : DockerBackend R) (force : bool)
    (w : World R) (before : list Container) (results : list (option error))
    (w1 : World R) (exporter : Container) (rest : list Container) (e : error)
    (w2 : World R) :
  teardowns b force w before results w1 ->
  Forall doneOrRefused results ->
  Forall (fun exporter => ctr_Names exporter <> []) before ->
  stopExporter b exporter force w1 = (Val (Some e), w2) ->
  IsErrExportedTaskStillRunning e = false ->
  forall failed,
    cleanupLoop b force (before ++ exporter :: rest) failed w = (Val (Some e), w2).
Proof.
  induction 1 as [w | w x xs result w1 results w3 Hstop _ IH];
    intros Hres Hnamed Hx He failed.
  - simpl. unfold bind at 1. rewrite Hx. simpl. rewrite He. reflexivity.
  - inversion Hres as [| ? ? Hr Hres']; subst.
    inversion Hnamed as [| ? ? Hn Hnamed']; subst.
    simpl. unfold bind at 1. rewrite Hstop.
    destruct result as [e' |]; simpl in *.
    + rewrite Hr. simpl.
      destruct (ctr_Names x) as [| n ns]; [congruence |].
      unfold bind at 1. unfold first, ret. apply (IH Hres' Hnamed' Hx He).
    + apply (IH Hres' Hnamed' Hx He).
Qed.

(** C5. Bulk teardown over the sidecars the runtime lists.  When every
    single teardown succeeds or is refused for a monitored container still
    running, all the sidecars are processed, refusals included, and the
    result is an error made of the names of exactly the refused sidecars,
    or no error when none was refused.  When a teardown fails with any
    other error, the sidecars before it having been processed, the
    operation returns that error at once, in the world that teardown left:
    the sidecars after it are not processed. *)
Theorem CleanupExporters_aggregate {R : Type} (b : DockerBackend R) (force : bool)
    (tr : list Call) (r0 r1 : R) (exporters : list Container) :
  ContainerList (APIClient := cli b)
    {| lo_All := true; lo_Filters := [("label", LABEL_EXPORTED_ID)] |} r0
    = (inr exporters, r1) ->
  Forall (fun exporter => ctr_Names exporter <> []) exporters ->
  let listed :=
    mkWorld r1
      (tr ++ [CallContainerList
                {| lo_All := true; lo_Filters := [("label", LABEL_EXPORTED_ID)] |}])%list in
  (forall results w',
     teardowns b force listed exporters results w' ->
     Forall doneOrRefused results ->
     CleanupExporters b force (mkWorld r0 tr)
       = (match refused exporters results with
          | [] => Val None
          | name0 :: names =>
              Val (Some (errNew ("failed to cleanup " +:+
                                 Join (name0 :: names) ", ")))
          end, w')) /\
  (forall before exporter rest results w1 e w2,
     exporters = (before ++ exporter :: rest)%list ->
     teardowns b force listed before results w1 ->
     Forall doneOrRefused results ->
     stopExporter b exporter force w1 = (Val (Some e), w2) ->
     IsErrExportedTaskStillRunning e = false ->
     CleanupExporters b force (mkWorld r0 tr) = (Val (Some e), w2)).
Proof.
  intros Hlist Hnamed listed. split.
  - intros results w' Hrun Hres.
    unfold CleanupExporters, bind, invoke. simpl. rewrite Hlist.
    rewrite (cleanupLoop_all b force listed exporters results w' Hrun Hres Hnamed).
    simpl. destruct (refused exporters results); reflexivity.
  - intros before exporter rest results w1 e w2 -> Hrun Hres Hstop He.
    unfold CleanupExporters, bind, invoke. simpl. rewrite Hlist.
    apply (cleanupLoop_abort b force listed before results w1 exporter rest e w2);
      try assumption.
    apply Forall_app in Hnamed. apply Hnamed.
Qed.

Lemma CleanupExporters_aggregate_witness :
  CleanupExporters testBackend false (fakeWorld (teardownScript threeSidecars notFound) 0 [])
    = (Val (Some (errNew "failed to cleanup exporter001, exporter003")),
       fakeWorld (teardownScript threeSidecars notFound) 7
         [listSidecars;
          CallContainerInspect "exported-task001-cid";
          CallContainerInspect "exported-task002-cid";
          CallNetworkDisconnect "testnet" "exporter002-cid" false;
          CallContainerStop "exporter002-cid";
          CallContainerRemove "exporter002-cid" false;
          CallContainerInspect "exported-task003-cid"]) /\
  CleanupExporters testBackend false
      (fakeWorld (teardownScript threeSidecars inspectError) 0 [])
    = (Val (Some (errWithStack (errClient inspectError))),
       fakeWorld (teardownScript threeSidecars inspectError) 3
         [listSidecars;
          CallContainerInspect "exported-task001-cid";
          CallContainerInspect "exported-task002-cid"]).
Proof.
  assert (Hnamed : Forall (fun exporter => ctr_Names exporter <> []) threeSidecars).
  { repeat constructor; discriminate. }
  split.
  - refine (proj1 (CleanupExporters_aggregate testBackend false []
                     (teardownScript threeSidecars notFound, 0)
                     (teardownScript threeSidecars notFound, 1)
                     threeSidecars _ Hnamed)
              [Some (errExportedTaskStillRunning "exporter001-cid" "exported-task001-cid");
               None;
               Some (errExportedTaskStillRunning "exporter003-cid" "exported-task003-cid")]
              _ _ _).
    + reflexivity.
    + repeat (eapply teardowns_cons; [vm_compute; reflexivity |]). apply teardowns_nil.
    + repeat constructor.
  - refine (proj2 (CleanupExporters_aggregate testBackend false []
                     (teardownScript threeSidecars inspectError, 0)
                     (teardownScript threeSidecars inspectError, 1)
                     threeSidecars _ Hnamed)
              [sidecar "001"] (sidecar "002") [sidecar "003"]
              [Some (errExportedTaskStillRunning "exporter001-cid" "exported-task001-cid")]
              (fakeWorld (teardownScript threeSidecars inspectError) 2
                 [listSidecars; CallContainerInspect "exported-task001-cid"])
              _ _ _ _ _ _ _).
    + reflexivity.
    + reflexivity.
    + eapply teardowns_cons; [vm_compute; reflexivity |]. apply teardowns_nil.
    + repeat constructor.
    + vm_compute. reflexivity.
    + reflexivity.
Defined.

(** ** Missing exporters *)

Lemma insertNames_lookup (n : string) (names : list string) :
  forall acc : gmap string string,
    is_Some (foldl (fun names name => <[name := name]> names) acc names !! n) <->
    is_Some (acc !! n) \/ n ∈ names.
Proof.
  induction names as [| x names IH]; intros acc; simpl.
  - rewrite elem_of_nil. tauto.
  - rewrite IH, elem_of_cons. destruct (decide (x = n)) as [-> | Hne].
    + rewrite lookup_insert_eq. split; [intros _; right; left; reflexivity |].
      intros _. left. eauto.
    + rewrite lookup_insert_ne by assumption. split; [tauto |].
      intros [H | [H | H]]; [tauto | congruence | tauto].
Qed.

Lemma collectNames_lookup (n : string) (containers : list Container) :
  is_Some (collectNames containers !! n) <->
  exists container, container ∈ containers /\ n ∈ ctr_Names container.
Proof.
  unfold collectNames.
  assert (Hgen : forall acc : gmap string string,
             is_Some (foldl (fun names container =>
                               foldl (fun names name => <[name := name]> names) names
                                     (ctr_Names container)) acc containers !! n) <->
             is_Some (acc !! n) \/
             exists container, container ∈ containers /\ n ∈ ctr_Names container).
  { induction containers as [| c containers IH]; intros acc; simpl.
    - split; [tauto |]. intros [H | (c & Hc & _)]; [assumption |].
      apply elem_of_nil in Hc. contradiction.
    - rewrite IH, insertNames_lookup. split.
      + intros [[H | H] | (c' & Hc' & Hn)]; [tauto | |].
        * right. exists c. split; [left | assumption].
        * right. exists c'. split; [right |]; assumption.
      + intros [H | (c' & Hc' & Hn)]; [tauto |].
        apply elem_of_cons in Hc'. destruct Hc' as [-> | Hc']; [tauto |].
        right. eauto. }
  rewrite Hgen, lookup_empty. split; [| tauto].
  intros [[x Hx] | H]; [discriminate | assumption].
Qed.

Lemma keepMissing_filter (containerNames : gmap string string) (exporters : list Exporter) :
  forall missing : list Exporter,
    foldl (fun missing exporter =>
             match containerNames !! Name exporter with
             | Some _ => missing
             | None => (missing ++ [exporter])%list
             end) missing exporters
    = (missing ++ List.filter (fun e => negb (nameTaken containerNames e)) exporters)%list.
Proof.
  induction exporters as [| e exporters IH]; intros missing; simpl.
  - rewrite app_nil_r. reflexivity.
  - rewrite IH. unfold nameTaken at 2.
    destruct (containerNames !! Name e); simpl; [reflexivity |].
    rewrite <- app_assoc. reflexivity.
Qed.

(** The second loop of [FindMissingExporters], in closed form. *)
Lemma missingLoop_eq {R : Type} {order : MapRange} (b : DockerBackend R)
    (containerNames : gmap string string) (containers : list Container) :
  Forall (fun container => isSidecar container = false -> ctr_Names container <> [])
         containers ->
  forall (missing : list Exporter) (w : World R),
    missingLoop b containerNames containers missing w
      = (Val (missing ++
              flat_map (fun container =>
                          List.filter (fun e => negb (nameTaken containerNames e))
                                      (resolved b container))
                       (List.filter (fun container => negb (isSidecar container))
                                    containers))%list,
         mkWorld (env w) (calls w ++ finderCalls containers)%list).
Proof.
  unfold finderCalls.
  induction 1 as [| c containers Hc _ IH]; intros missing w; simpl.
  - rewrite !app_nil_r. destruct w; reflexivity.
  - unfold isSidecar in *. destruct (ctr_Labels c !! LABEL_EXPORTED_NAME) eqn:El; simpl.
    + apply IH.
    + destruct (ctr_Names c) as [| n ns] eqn:En; [exfalso; apply Hc; reflexivity |].
      unfold first, bind at 1, ret.
      unfold bind at 1. rewrite resolveExporters_eq.
      rewrite keepMissing_filter, IH. simpl.
      unfold resolved, taskOf. rewrite En. simpl.
      rewrite <- !app_assoc. reflexivity.
Qed.

(** C6. Missing-exporter detection over the containers the runtime lists.
    The catalog is consulted for the listed containers that do not carry
    the bookkeeping label of a sidecar, once each and in order, and for no
    other: never for a sidecar.  An exporter is reported if and only if
    it is resolved for one of those containers (a match of the catalog,
    under its computed name) and its computed name is not a name of any
    listed container. *)
Theorem FindMissingExporters_reports {R : Type} {order : MapRange} (b : DockerBackend R)
    (tr : list Call) (r0 r1 : R) (containers : list Container) :
  ContainerList (APIClient := cli b) {| lo_All := false; lo_Filters := [] |} r0
    = (inr containers, r1) ->
  Forall (fun container => isSidecar container = false -> ctr_Names container <> [])
         containers ->
  exists missing,
    FindMissingExporters b (mkWorld r0 tr)
      = (Val (missing, None), mkWorld r1 (tr ++ listAll :: finderCalls containers)%list) /\
    (forall t, CallFindMatchingExporters t ∈ finderCalls containers <->
       exists container,
         container ∈ containers /\
         ctr_Labels container !! LABEL_EXPORTED_NAME = None /\
         t = taskOf container) /\
    (forall e, e ∈ missing <->
       exists container pname m,
         container ∈ containers /\
         ctr_Labels container !! LABEL_EXPORTED_NAME = None /\
         fst (FindMatchingExporters (ExporterFinder := finder b) (taskOf container)) !! pname
           = Some m /\
         e = withName m (getExporterName pname (task_Name (taskOf container))) /\
         forall other, other ∈ containers -> Name e ∉ ctr_Names other).
Proof.
  intros Hlist Hnamed.
  assert (Hnot : forall c : Container,
             negb (isSidecar c) = true <-> ctr_Labels c !! LABEL_EXPORTED_NAME = None).
  { intros c. unfold isSidecar. destruct (ctr_Labels c !! LABEL_EXPORTED_NAME); simpl.
    - split; discriminate.
    - tauto. }
  eexists. split; [| split].
  - unfold FindMissingExporters, bind, invoke. simpl. rewrite Hlist.
    rewrite (missingLoop_eq b _ containers Hnamed). simpl.
    unfold ret, listAll. rewrite <- app_assoc. reflexivity.
  - intros t. unfold finderCalls. rewrite list_elem_of_fmap. split.
    + intros (c & [= ->] & Hin). apply list_elem_of_In, filter_In in Hin.
      destruct Hin as [Hin Hs]. exists c.
      split; [apply list_elem_of_In; assumption |].
      split; [apply Hnot; assumption | reflexivity].
    + intros (c & Hin & Hl & ->). exists c. split; [reflexivity |].
      apply list_elem_of_In, filter_In.
      split; [apply list_elem_of_In; assumption | apply Hnot; assumption].
  - intros e. rewrite list_elem_of_In, in_flat_map. split.
    + intros (c & Hin & He). apply filter_In in Hin. destruct Hin as [Hin Hs].
      apply filter_In in He. destruct He as [He Htaken].
      unfold resolved in He. apply list_elem_of_In, list_elem_of_fmap in He.
      destruct He as ([pname m] & -> & Hm). apply elem_of_mapRange in Hm.
      exists c, pname, m.
      split; [apply list_elem_of_In; assumption |].
      split; [apply Hnot; assumption |].
      split; [assumption |]. split; [reflexivity |].
      intros other Hother Hname.
      assert (Hsome : is_Some (collectNames containers !!
                Name (withName m (getExporterName pname (task_Name (taskOf c)))))).
      { apply collectNames_lookup. eauto. }
      unfold nameTaken in Htaken. destruct Hsome as [x Hx].
      simpl in *. rewrite Hx in Htaken. discriminate.
    + intros (c & pname & m & Hin & Hl & Hm & -> & Hfree). exists c. split.
      * apply filter_In. split; [apply list_elem_of_In; assumption | apply Hnot; assumption].
      * apply filter_In. split.
        -- unfold resolved. apply list_elem_of_In, list_elem_of_fmap.
           exists (pname, m). split; [reflexivity | apply elem_of_mapRange; assumption].
        -- unfold nameTaken.
           destruct (collectNames containers !! _) as [x |] eqn:Ex; [| reflexivity].
           exfalso. assert (Hsome : is_Some (collectNames containers !!
                      Name (withName m (getExporterName pname (task_Name (taskOf c)))))).
           { eauto. }
           apply collectNames_lookup in Hsome. destruct Hsome as (other & Ho & Hn).
           exact (Hfree other Ho Hn).
Qed.

Lemma FindMissingExporters_reports_witness :
  exists missing,
    FindMissingExporters finderBackend (fakeWorld (listingScript testListing) 0 [])
      = (Val (missing, None),
         fakeWorld (listingScript testListing) 1 (listAll :: finderCalls testListing)) /\
    (forall e, e ∈ missing <->
       exists container pname m,
         container ∈ testListing /\
         ctr_Labels container !! LABEL_EXPORTED_NAME = None /\
         fst (FindMatchingExporters (ExporterFinder := testFinder) (taskOf container)) !! pname
           = Some m /\
         e = withName m (getExporterName pname (task_Name (taskOf container))) /\
         forall other, other ∈ testListing -> Name e ∉ ctr_Names other).
Proof.
  destruct (FindMissingExporters_reports finderBackend []
              (listingScript testListing, 0) (listingScript testListing, 1) testListing)
    as (missing & Hrun & _ & Hmissing).
  - reflexivity.
  - repeat constructor; intros _; discriminate.
  - exists missing. split; [exact Hrun | exact Hmissing].
Defined.

(** ** The retry helper *)

(** The body of [retry], as one equation. *)
Lemma retry_body {St : Type} (times interval : Z) (f : St -> option error * St)
    (w : RetryWorld St) :
  retry times interval f w
    = match f (opState w) with
      | (None, s1) => (None, mkRetryWorld s1 (events w ++ [Invoked])%list)
      | (Some err, s1) =>
          if Z.eq_dec (uintSub times 1) 0%Z
          then (Some err, mkRetryWorld s1 (events w ++ [Invoked])%list)
          else retry (uintSub times 1) interval f
                 (mkRetryWorld s1 (events w ++ [Invoked; Slept interval])%list)
      end.
Proof.
  rewrite retry_equation_1.
  destruct (f (opState w)) as [[err |] s1]; simpl; [| reflexivity].
  destruct (Z.eq_dec (uintSub times 1) 0%Z); reflexivity.
Qed.

Lemma stateAfter_shift {St : Type} (f : St -> option error * St) (s : St) (i : nat) :
  stateAfter f s (S i) = stateAfter f (snd (f s)) i.
Proof.
  induction i as [| i IH]; [reflexivity |].
  change (snd (f (stateAfter f s (S i))) = snd (f (stateAfter f (snd (f s)) i))).
  rewrite IH. reflexivity.
Qed.

Lemma attempt_shift {St : Type} (f : St -> option error * St) (s : St) (i : nat) :
  attempt f s (S i) = attempt f (snd (f s)) i.
Proof. unfold attempt. rewrite stateAfter_shift. reflexivity. Qed.

Lemma schedule_next (k : nat) (interval : Z) :
  1 <= k -> schedule (S k) interval = Invoked :: Slept interval :: schedule k interval.
Proof. destruct k; [lia | reflexivity]. Qed.

(** [retry] with [m] decrements left before its counter reaches zero: it
    makes some [k] invocations, at most [m + 1], sleeping between them;
    every invocation but the last failed, the result is the last one's,
    and when that is an error all [m + 1] invocations were made. *)
Lemma retry_attempts {St : Type} (interval : Z) (f : St -> option error * St) (m : nat) :
  forall (times : Z) (s : St) (log : list RetryEvent),
    Z.of_nat m = uintSub times 1 ->
    exists k : nat,
      1 <= k <= S m /\
      retry times interval f (mkRetryWorld s log)
        = (attempt f s (k - 1),
           mkRetryWorld (stateAfter f s k) (log ++ schedule k interval)%list) /\
      (forall i, i < k - 1 -> attempt f s i <> None) /\
      (attempt f s (k - 1) <> None -> k = S m).
Proof.
  induction m as [| m IH]; intros times s log Hm; rewrite retry_body; simpl.
  - exists 1. unfold attempt. simpl. split; [lia |].
    destruct (f s) as [[err |] s1] eqn:Ef; simpl.
    + destruct (Z.eq_dec (uintSub times 1) 0%Z) as [_ | Hne]; [| lia].
      split; [reflexivity |]. split; [intros i Hi; lia | reflexivity].
    + split; [reflexivity |]. split; [intros i Hi; lia | congruence].
  - destruct (f s) as [[err |] s1] eqn:Ef; simpl.
    + destruct (Z.eq_dec (uintSub times 1) 0%Z) as [Hz | _]; [lia |].
      destruct (IH (uintSub times 1) s1 (log ++ [Invoked; Slept interval])%list)
        as (k & Hk & Hrun & Hfail & Hlast).
      { unfold uintSub, uintModulus in *.
        assert (0 <= (times - 1) mod 2 ^ 64 < 2 ^ 64)%Z by (apply Z.mod_pos_bound; lia).
        rewrite (Z.mod_small ((times - 1) mod 2 ^ 64 - 1)) by lia. lia. }
      exists (S k). split; [lia |].
      assert (Hs1 : s1 = snd (f s)) by (rewrite Ef; reflexivity).
      replace (S k - 1) with (S (k - 1)) by lia.
      split; [| split].
      * rewrite Hrun. rewrite schedule_next by lia.
        rewrite attempt_shift, stateAfter_shift, <- Hs1, <- app_assoc. reflexivity.
      * intros [| i] Hi.
        -- unfold attempt. simpl. rewrite Ef. discriminate.
        -- rewrite attempt_shift, <- Hs1. apply Hfail. lia.
      * rewrite attempt_shift, <- Hs1.
        intros H. f_equal. apply Hlast. exact H.
    + exists 1. unfold attempt. simpl. rewrite Ef. simpl.
      split; [lia |]. split; [reflexivity |].
      split; [intros i Hi; lia | congruence].
Qed.

(** C9. For an attempt bound [n] of at least 1, [retry] invokes the
    operation [k] times, with [1 <= k <= n], sleeping [interval] between
    two consecutive invocations and at no other time; every invocation
    before the last failed and the result is that of the last, so that
    [retry] returns nil at the first invocation that succeeds, making no
    further one; and when the result is an error, all [n] invocations were
    made and the error is that of the last. *)
Theorem retry_bounded {St : Type} (n interval : Z) (f : St -> option error * St)
    (s : St) (log : list RetryEvent) :
  (1 <= n < uintModulus)%Z ->
  exists k : nat,
    1 <= k /\ (Z.of_nat k <= n)%Z /\
    retry n interval f (mkRetryWorld s log)
      = (attempt f s (k - 1),
         mkRetryWorld (stateAfter f s k) (log ++ schedule k interval)%list) /\
    (forall i, i < k - 1 -> attempt f s i <> None) /\
    (attempt f s (k - 1) <> None -> Z.of_nat k = n).
Proof.
  intros Hn.
  assert (Hsub : uintSub n 1 = (n - 1)%Z).
  { unfold uintSub. apply Z.mod_small. lia. }
  destruct (retry_attempts interval f (Z.to_nat (n - 1)) n s log)
    as (k & Hk & Hrun & Hfail & Hlast).
  { rewrite Hsub. lia. }
  exists k. split; [lia |]. split; [lia |]. split; [exact Hrun |].
  split; [exact Hfail |]. intros H. apply Hlast in H. lia.
Qed.

Lemma retry_bounded_witness :
  exists k : nat,
    1 <= k /\ (Z.of_nat k <= 3)%Z /\
    retry 3 5 flaky (mkRetryWorld 2 [])
      = (attempt flaky 2 (k - 1),
         mkRetryWorld (stateAfter flaky 2 k) ([] ++ schedule k 5)%list) /\
    (forall i, i < k - 1 -> attempt flaky 2 i <> None) /\
    (attempt flaky 2 (k - 1) <> None -> Z.of_nat k = 3%Z).
Proof.
  apply (retry_bounded 3 5 flaky 2 []). unfold uintModulus. lia.
Defined.

(** C10. With an attempt bound of 0 the counter wraps around on its first
    decrement, to [2^64 - 1]; an operation that always fails is then
    invoked [2^64] times in all before [retry] returns the last error,
    not zero times or once. *)
Theorem retry_zero_wraps {St : Type} (interval : Z) (f : St -> option error * St)
    (s : St) (log : list RetryEvent) :
  (forall s', fst (f s') <> None) ->
  uintSub 0 1 = (2 ^ 64 - 1)%Z /\
  exists k : nat,
    Z.of_nat k = (2 ^ 64)%Z /\
    retry 0 interval f (mkRetryWorld s log)
      = (attempt f s (k - 1),
         mkRetryWorld (stateAfter f s k) (log ++ schedule k interval)%list) /\
    attempt f s (k - 1) <> None.
Proof.
  intros Hfails.
  assert (Hwrap : uintSub 0 1 = (2 ^ 64 - 1)%Z) by reflexivity.
  split; [exact Hwrap |].
  destruct (retry_attempts interval f (Z.to_nat (2 ^ 64 - 1)) 0 s log)
    as (k & Hk & Hrun & _ & Hlast).
  { rewrite Hwrap. lia. }
  assert (Hfail : attempt f s (k - 1) <> None) by apply Hfails.
  exists k. split; [| split; assumption].
  rewrite (Hlast Hfail). lia.
Qed.

Lemma retry_zero_wraps_witness :
  uintSub 0 1 = (2 ^ 64 - 1)%Z /\
  exists k : nat,
    Z.of_nat k = (2 ^ 64)%Z /\
    retry 0 5 hopeless (mkRetryWorld tt [])
      = (attempt hopeless tt (k - 1),
         mkRetryWorld (stateAfter hopeless tt k) ([] ++ schedule k 5)%list) /\
    attempt hopeless tt (k - 1) <> None.
Proof.
  apply (retry_zero_wraps 5 hopeless tt []). intros s'. discriminate.
Defined.

(** ** The explicit exporter-type label *)

(** C8 at a task that carries the exporter-type label: [resolveExporters]
    does not read the label (the check that its comment announces is
    commented out); it asks the catalog and returns the catalog's match,
    of type "type", where the label asks for "redis". *)
Theorem resolveExporters_ignores_label :
  task_Labels labelledTask !! LABEL_EXPORTER = Some "redis" /\
  resolveExporters finderBackend labelledTask (fakeWorld okScript 0 [])
    = (Val [ {| Name := "/exporter.type.web";
                ExporterType := "type";
                Image := "some/image";
                Cmd := [];
                EnvVars := [];
                Port := "8080";
                ExportedTask := labelledTask |} ],
       fakeWorld okScript 0 [CallFindMatchingExporters labelledTask]).
Proof. split; vm_compute; reflexivity. Qed.

(** * Further properties *)

(** ** The startup pipeline, every run *)

Section PipelineRuns.
Context {R : Type}.
Variable b : DockerBackend R.
Variable ctx : Context R.
Variable exporter0 : Exporter.

(** What an iteration that returns has done. *)
Lemma iteration_return p w r w' :
  iteration b ctx exporter0 p w = (Val (inl r), w') ->
  (r = None /\ w' = w /\ (ctx (env w) = true \/ step p = stepFinished)) \/
  (exists c, r = Some (errWithStack (errClient c)) /\
             callOf b exporter0 p <> [] /\
             calls w' = (calls w ++ callOf b exporter0 p)%list) \/
  (r = Some (errNew ("undefined step " +:+ step p)) /\ ~ knownStep (step p)).
Proof.
  unfold iteration, callOf, bind, ctxDone.
  destruct (ctx (env w)) eqn:Hc.
  { unfold ret. intros [= <- <-]. auto. }
  destruct (String.eqb (step p) stepPullImage) eqn:E1.
  { unfold pullImage, bind, invoke, ret.
    destruct (ImagePull _ _) as [[e | [e |]] r1]; simpl; intros [= <- <-];
      right; left; exists e; simpl; auto. }
  destruct (String.eqb (step p) stepCreate) eqn:E2.
  { unfold createContainer, bind, invoke, ret.
    destruct (ContainerCreate _ _ _ _) as [[e | body] r1]; simpl; intros [= <- <-].
    right; left; exists e; simpl; auto. }
  destruct (String.eqb (step p) stepConnect) eqn:E3.
  { unfold connectToNetwork, bind, invoke, ret.
    destruct (NetworkConnect _ _ _) as [[e |] r1]; simpl;
      [destruct (Contains _ _) |]; simpl; intros [= <- <-].
    right; left; exists e; simpl; auto. }
  destruct (String.eqb (step p) stepStart) eqn:E4.
  { unfold startContainer, bind, invoke, ret.
    destruct (ContainerStart _ _) as [[e |] r1]; simpl; intros [= <- <-].
    right; left; exists e; simpl; auto. }
  destruct (String.eqb (step p) stepFinished) eqn:E5.
  { apply String.eqb_eq in E5. unfold ret. intros [= <- <-]. auto. }
  unfold ret. simpl. intros [= <- <-]. right; right. split; [reflexivity |].
  apply String.eqb_neq in E1, E2, E3, E4, E5. unfold knownStep. intuition.
Qed.

(** A loop with enough fuel ends in an iteration that returns. *)
Lemma runLoop_last fuel : forall p w,
  rank (step p) <= fuel ->
  exists pl wl r w',
    reaches b ctx exporter0 p w pl wl /\
    iteration b ctx exporter0 pl wl = (Val (inl r), w') /\
    runLoop b fuel ctx exporter0 p w = (Val r, w').
Proof.
  induction fuel as [| fuel IH]; intros p w Hr.
  - pose proof (rank_pos (step p)). lia.
  - destruct (iteration_val b ctx exporter0 p w) as ([r | p1] & w1 & Hit).
    + exists p, w, r, w1. split; [apply reaches_here |]. split; [exact Hit |].
      simpl. unfold bind at 1. rewrite Hit. reflexivity.
    + destruct (IH p1 w1) as (pl & wl & r & w' & Hreach & Hlast & Hrun).
      { apply iteration_rank in Hit. lia. }
      exists pl, wl, r, w'. split; [eapply reaches_next; eassumption |].
      split; [exact Hlast |].
      simpl. unfold bind at 1. rewrite Hit. exact Hrun.
Qed.

Lemma reaches_known p w p' w' :
  reaches b ctx exporter0 p w p' w' ->
  knownStep (step p) /\ exporter p = exporter0 ->
  knownStep (step p') /\ exporter p' = exporter0.
Proof.
  induction 1 as [p w | p w p1 w1 p2 w2 Hit _ IH]; intros [Hk He]; [auto |].
  apply IH. apply iteration_continue in Hit.
  destruct Hit as (_ & He1 & Hcase). split; [| congruence].
  unfold knownStep. destruct Hcase as [H | [H | [H | H]]];
    destruct H as (_ & -> & _); auto 10.
Qed.

End PipelineRuns.

(** X1. Every run of [RunExporter], whatever the client answers and
    whenever the context is cancelled: it returns, and the calls it has
    issued are the first ones of the sequence pull, create, connect, start,
    in that order, the connect and the start being for one and the same
    container id.  Its result is nil or the error of a client call under a
    recorded stack, in which case at least one call was issued; it is never
    the error of an undefined step. *)
Theorem RunExporter_trace_shape {R : Type} (b : DockerBackend R) (ctx : Context R)
    (e : Exporter) (w : World R) :
  exists r w' cid issued,
    RunExporter b ctx e w = (Val r, w') /\
    calls w' = (calls w ++ issued)%list /\
    issued `prefix_of` [pullCall e; createCall e; connectCall b cid; startCall cid] /\
    (r = None \/ exists c, r = Some (errWithStack (errClient c)) /\ issued <> []).
Proof.
  destruct (runLoop_last b ctx e 8 (startProcess e) w) as (pl & wl & r & w' & Hreach & Hlast & Hrun).
  { vm_compute. lia. }
  destruct (reaches_known b ctx e _ _ _ _ Hreach) as [Hk He].
  { split; [left; reflexivity | reflexivity]. }
  pose proof (reaches_calls b ctx e _ _ _ _ Hreach w eq_refl) as Hcalls.
  rewrite app_nil_r in Hcalls. specialize (Hcalls eq_refl).
  apply iteration_return in Hlast.
  exists r, w', (exporterCID pl).
  destruct Hlast as [(-> & -> & _) | [(c & -> & Hne & Hc) | (_ & Hun)]];
    [| | contradiction].
  - exists (callsBefore b e pl). split; [exact Hrun |]. split; [exact Hcalls |].
    split; [| left; reflexivity].
    unfold callsBefore.
    destruct Hk as [-> | [-> | [-> | [-> | ->]]]]; simpl.
    + apply prefix_nil.
    + exists [createCall e; connectCall b (exporterCID pl); startCall (exporterCID pl)].
      reflexivity.
    + exists [connectCall b (exporterCID pl); startCall (exporterCID pl)]. reflexivity.
    + exists [startCall (exporterCID pl)]. reflexivity.
    + exists []. reflexivity.
  - exists (callsBefore b e pl ++ callOf b e pl)%list.
    split; [exact Hrun |]. split; [rewrite Hc, Hcalls, <- app_assoc; reflexivity |].
    split.
    + unfold callsBefore, callOf in *. rewrite He.
      destruct Hk as [Hs | [Hs | [Hs | [Hs | Hs]]]]; rewrite Hs in *; simpl in *.
      * exists [createCall e; connectCall b (exporterCID pl); startCall (exporterCID pl)].
        reflexivity.
      * exists [connectCall b (exporterCID pl); startCall (exporterCID pl)]. reflexivity.
      * exists [startCall (exporterCID pl)]. reflexivity.
      * exists []. reflexivity.
      * congruence.
    + right. exists c. split; [reflexivity |].
      intros Hnil. apply app_eq_nil in Hnil. destruct Hnil as [_ Hnil]. contradiction.
Qed.

(** ** The startup pipeline: a step that fails *)

(** X2. A pull that fails, whether the runtime refuses it or the stream of
    its progress breaks while it is read to its end, ends [RunExporter]
    with that error under a recorded stack; the pull is the only call
    issued: nothing is created. *)
Theorem RunExporter_pull_failure {R : Type} (b : DockerBackend R) (ctx : Context R)
    (e : Exporter) (tr : list Call) (r0 r1 : R) (res : PullResult) (c : cerror) :
  ctx r0 = false ->
  ImagePull (APIClient := cli b) (Image e) r0 = (res, r1) ->
  res = pullFailed c \/ res = pullStream (Some c) ->
  RunExporter b ctx e (mkWorld r0 tr)
    = (Val (Some (errWithStack (errClient c))),
       mkWorld r1 (tr ++ [CallImagePull (Image e)])%list).
Proof.
  intros Hc0 Hpull [-> | ->]; unfold_backend; simpl runLoop; unfold_backend;
    replay; reflexivity.
Qed.

Lemma RunExporter_pull_failure_witness :
  RunExporter testBackend fakeCtx redisExporter
      (fakeWorld (stepScript (pullStream (Some pullError)) (inr createdBody) None) 0 [])
    = (Val (Some (errWithStack (errClient pullError))),
       fakeWorld (stepScript (pullStream (Some pullError)) (inr createdBody) None) 1
         [CallImagePull "oliver006/redis_exporter:latest"]).
Proof.
  apply (RunExporter_pull_failure testBackend fakeCtx redisExporter []
           (stepScript (pullStream (Some pullError)) (inr createdBody) None, 0)
           (stepScript (pullStream (Some pullError)) (inr createdBody) None, 1)
           (pullStream (Some pullError)) pullError).
  - reflexivity.
  - reflexivity.
  - right. reflexivity.
Defined.

(** X3. A create that fails after a successful pull ends [RunExporter] with
    that error under a recorded stack; the pull and the create are the only
    calls issued: no network is connected and nothing is started. *)
Theorem RunExporter_create_failure {R : Type} (b : DockerBackend R) (ctx : Context R)
    (e : Exporter) (tr : list Call) (r0 r1 r2 : R) (c : cerror) :
  ctx r0 = false ->
  ImagePull (APIClient := cli b) (Image e) r0 = (pullStream None, r1) ->
  ctx r1 = false ->
  ContainerCreate (APIClient := cli b) (configOf e) (hostConfigOf e) (Name e) r1
    = (inl c, r2) ->
  RunExporter b ctx e (mkWorld r0 tr)
    = (Val (Some (errWithStack (errClient c))),
       mkWorld r2
         (tr ++ [CallImagePull (Image e);
                 CallContainerCreate (configOf e) (hostConfigOf e) (Name e)])%list).
Proof.
  intros Hc0 Hpull Hc1 Hcreate. unfold_backend. simpl runLoop. unfold_backend.
  replay. repeat rewrite <- app_assoc. reflexivity.
Qed.

Lemma RunExporter_create_failure_witness :
  RunExporter testBackend fakeCtx redisExporter
      (fakeWorld (stepScript (pullStream None) (inl createError) None) 0 [])
    = (Val (Some (errWithStack (errClient createError))),
       fakeWorld (stepScript (pullStream None) (inl createError) None) 2
         [CallImagePull "oliver006/redis_exporter:latest";
          CallContainerCreate (configOf redisExporter) (hostConfigOf redisExporter)
            "exporter004"]).
Proof.
  apply (RunExporter_create_failure testBackend fakeCtx redisExporter []
           (stepScript (pullStream None) (inl createError) None, 0)
           (stepScript (pullStream None) (inl createError) None, 1)
           (stepScript (pullStream None) (inl createError) None, 2)
           createError); reflexivity.
Defined.

(** X4. A start that fails ends [RunExporter] with that error under a
    recorded stack, and the start is the last call: the container that was
    created and connected is neither stopped nor removed. *)
Theorem RunExporter_start_failure {R : Type} (b : DockerBackend R) (ctx : Context R)
    (e : Exporter) (tr : list Call) (r0 r1 r2 r3 r4 : R) (body : CreatedBody)
    (connected : option cerror) (c : cerror) :
  ctx r0 = false ->
  ImagePull (APIClient := cli b) (Image e) r0 = (pullStream None, r1) ->
  ctx r1 = false ->
  ContainerCreate (APIClient := cli b) (configOf e) (hostConfigOf e) (Name e) r1
    = (inr body, r2) ->
  ctx r2 = false ->
  NetworkConnect (APIClient := cli b) (promNetwork b) (created_ID body) r2
    = (connected, r3) ->
  match connected with
  | Some err => Contains (cmsg err) "endpoint with name" = true
  | None => True
  end ->
  ctx r3 = false ->
  ContainerStart (APIClient := cli b) (created_ID body) r3 = (Some c, r4) ->
  RunExporter b ctx e (mkWorld r0 tr)
    = (Val (Some (errWithStack (errClient c))),
       mkWorld r4
         (tr ++ [CallImagePull (Image e);
                 CallContainerCreate (configOf e) (hostConfigOf e) (Name e);
                 CallNetworkConnect (promNetwork b) (created_ID body);
                 CallContainerStart (created_ID body)])%list).
Proof.
  intros Hc0 Hpull Hc1 Hcreate Hc2 Hconnect Hok Hc3 Hstart.
  destruct connected as [err |];
    unfold_backend; simpl runLoop; unfold_backend; replay;
    repeat rewrite <- app_assoc; reflexivity.
Qed.

Lemma RunExporter_start_failure_witness :
  RunExporter testBackend fakeCtx redisExporter
      (fakeWorld (stepScript (pullStream None) (inr createdBody) (Some startError)) 0 [])
    = (Val (Some (errWithStack (errClient startError))),
       fakeWorld (stepScript (pullStream None) (inr createdBody) (Some startError)) 4
         [CallImagePull "oliver006/redis_exporter:latest";
          CallContainerCreate (configOf redisExporter) (hostConfigOf redisExporter)
            "exporter004";
          CallNetworkConnect "testnet" "9d234f";
          CallContainerStart "9d234f"]).
Proof.
  apply (RunExporter_start_failure testBackend fakeCtx redisExporter []
           (stepScript (pullStream None) (inr createdBody) (Some startError), 0)
           (stepScript (pullStream None) (inr createdBody) (Some startError), 1)
           (stepScript (pullStream None) (inr createdBody) (Some startError), 2)
           (stepScript (pullStream None) (inr createdBody) (Some startError), 3)
           (stepScript (pullStream None) (inr createdBody) (Some startError), 4)
           createdBody None startError); reflexivity.
Defined.

(** ** Strings: what [Contains] and [TrimLeft] compute *)

Lemma append_cons (c : ascii) (a x : string) : String c a +:+ x = String c (a +:+ x).
Proof. reflexivity. Qed.

Lemma append_empty_l (x : string) : EmptyString +:+ x = x.
Proof. reflexivity. Qed.

Lemma HasPrefix_spec (prefix : string) : forall s,
  HasPrefix s prefix = true <-> exists rest, s = prefix +:+ rest.
Proof.
  induction prefix as [| a prefix IH]; intros s; simpl.
  - split; [intros _; exists s; reflexivity | intros _; destruct s; reflexivity].
  - destruct s as [| c s]; simpl.
    + split; [discriminate | intros (rest & H); discriminate].
    + rewrite andb_true_iff, Ascii.eqb_eq, IH. split.
      * intros (-> & rest & ->). exists rest. reflexivity.
      * intros (rest & H). rewrite append_cons in H. injection H as -> ->. eauto.
Qed.

Lemma Contains_spec (substr : string) : forall s,
  Contains s substr = true <-> exists before rest, s = before +:+ substr +:+ rest.
Proof.
  induction s as [| c s IH].
  - change (Contains EmptyString substr) with (HasPrefix EmptyString substr || false).
    rewrite orb_false_r, HasPrefix_spec. split.
    + intros (rest & H). exists EmptyString, rest. exact H.
    + intros (before & rest & H). destruct before as [| c before].
      * exists rest. exact H.
      * rewrite append_cons in H. discriminate.
  - change (Contains (String c s) substr)
      with (HasPrefix (String c s) substr || Contains s substr).
    rewrite orb_true_iff, HasPrefix_spec, IH. split.
    + intros [(rest & H) | (before & rest & ->)].
      * exists EmptyString, rest. exact H.
      * exists (String c before), rest. reflexivity.
    + intros (before & rest & H). destruct before as [| c' before].
      * left. exists rest. exact H.
      * right. rewrite append_cons in H. injection H as -> ->. eauto.
Qed.

(** X5. When the network-connect call fails, [connectToNetwork] counts it
    as a success exactly when the text "endpoint with name" occurs somewhere
    in the error's message, with these very letters; otherwise it returns
    the error under a recorded stack.  Either way the call was made
    once. *)
Theorem connectToNetwork_tolerates {R : Type} (b : DockerBackend R) (e : Exporter)
    (cid : string) (tr : list Call) (r r' : R) (err : cerror) :
  NetworkConnect (APIClient := cli b) (promNetwork b) cid r = (Some err, r') ->
  exists out,
    connectToNetwork b e cid (mkWorld r tr)
      = (Val out, mkWorld r' (tr ++ [CallNetworkConnect (promNetwork b) cid])%list) /\
    (out = None <->
     exists before rest, cmsg err = before +:+ "endpoint with name" +:+ rest) /\
    (out <> None -> out = Some (errWithStack (errClient err))).
Proof.
  intros Hconnect.
  assert (Hrun : connectToNetwork b e cid (mkWorld r tr)
            = (Val (if Contains (cmsg err) "endpoint with name" then None
                    else Some (errWithStack (errClient err))),
               mkWorld r' (tr ++ [CallNetworkConnect (promNetwork b) cid])%list)).
  { destruct (Contains (cmsg err) "endpoint with name") eqn:Hmsg;
      unfold_backend; replay; reflexivity. }
  eexists. split; [exact Hrun |]. rewrite <- Contains_spec.
  destruct (Contains (cmsg err) "endpoint with name"); split;
    try tauto; try congruence.
  split; discriminate.
Qed.

Lemma connectToNetwork_tolerates_witness :
  exists out,
    connectToNetwork testBackend redisExporter "9d234f"
        (fakeWorld (connectFails alreadyConnected) 2 [])
      = (Val out,
         fakeWorld (connectFails alreadyConnected) 3
           ([] ++ [CallNetworkConnect "testnet" "9d234f"])%list) /\
    (out = None <->
     exists before rest,
       cmsg alreadyConnected = before +:+ "endpoint with name" +:+ rest) /\
    (out <> None -> out = Some (errWithStack (errClient alreadyConnected))).
Proof.
  apply (connectToNetwork_tolerates testBackend redisExporter "9d234f" []
           (connectFails alreadyConnected, 2) (connectFails alreadyConnected, 3)
           alreadyConnected).
  reflexivity.
Defined.

(** ** Teardown, every run *)

(** X6. Every run of [stopExporter], whatever the client answers: the
    calls it issues are the first ones of the sequence inspect, disconnect,
    stop, remove, in that order and at least the inspection; the inspection
    is of the container named by the sidecar's exported-id label, the three
    others are for the sidecar's own id.  It never stops a sidecar it has
    not disconnected, never removes one it has not stopped, and touches no
    other container. *)
Theorem stopExporter_trace_shape {R : Type} (b : DockerBackend R) (exporter : Container)
    (force : bool) (w : World R) :
  exists out w' issued,
    stopExporter b exporter force w = (out, w') /\
    calls w' = (calls w ++ issued)%list /\
    issued <> [] /\
    issued `prefix_of` teardownCalls b exporter force.
Proof.
  unfold teardownCalls. unfold_backend.
  destruct (ContainerInspect _ _) as [[err | exported] r2]; simpl;
    [destruct (negb (IsErrNotFound err)) | destruct (json_Running exported && negb force)];
    simpl;
    try (do 3 eexists; split; [reflexivity |]; simpl;
         split; [reflexivity |]; split; [discriminate |];
         eexists; reflexivity);
    (destruct (NetworkDisconnect _ _ _ _) as [[ed |] r3]; simpl;
     [| destruct (ContainerStop _ _) as [[es |] r4]; simpl;
        [| destruct (ContainerRemove _ _ _) as [[erm |] r5]; simpl;
           [| destruct (ctr_Names exporter); simpl]]]);
    do 3 eexists; (split; [reflexivity |]); simpl;
    repeat rewrite <- app_assoc;
    (split; [reflexivity |]); (split; [discriminate |]);
    eexists; reflexivity.
Qed.

(** X7. What decides a teardown.  After the inspection of the monitored
    container, [stopExporter] goes on to disconnect the sidecar exactly
    when the monitored container is reported as not found, or is inspected
    and either is not running or the teardown is forced.  Otherwise the
    inspection is its only call: an inspection that fails for another
    reason is returned under a recorded stack, forced or not, and a running
    container without force gives the still-running refusal. *)
Theorem stopExporter_decision {R : Type} (b : DockerBackend R) (exporter : Container)
    (force : bool) (tr : list Call) (r1 r2 : R) (inspected : cerror + ContainerJSON) :
  ContainerInspect (APIClient := cli b) (labelOf (ctr_Labels exporter) LABEL_EXPORTED_ID) r1
    = (inspected, r2) ->
  exists out w',
    stopExporter b exporter force (mkWorld r1 tr) = (out, w') /\
    if goesOn inspected force
    then exists rest,
           calls w'
           = (tr ++ [CallContainerInspect (labelOf (ctr_Labels exporter) LABEL_EXPORTED_ID);
                     CallNetworkDisconnect (promNetwork b) (ctr_ID exporter) force]
                 ++ rest)%list
    else w' = mkWorld r2
                (tr ++ [CallContainerInspect
                          (labelOf (ctr_Labels exporter) LABEL_EXPORTED_ID)])%list /\
         out = Val (Some match inspected with
                         | inl err => errWithStack (errClient err)
                         | inr _ =>
                             errExportedTaskStillRunning (ctr_ID exporter)
                               (labelOf (ctr_Labels exporter) LABEL_EXPORTED_ID)
                         end).
Proof.
  intros Hinspect. unfold goesOn. unfold_backend. replay.
  destruct inspected as [err | exported]; simpl;
    [destruct (IsErrNotFound err) | destruct (json_Running exported && negb force)];
    simpl; try (do 2 eexists; split; [reflexivity |]; split; reflexivity);
    (destruct (NetworkDisconnect _ _ _ _) as [[ed |] r3]; simpl;
     [| destruct (ContainerStop _ _) as [[es |] r4]; simpl;
        [| destruct (ContainerRemove _ _ _) as [[erm |] r5]; simpl;
           [| destruct (ctr_Names exporter); simpl]]]);
    do 2 eexists; (split; [reflexivity |]); simpl;
    repeat rewrite <- app_assoc; eexists; reflexivity.
Qed.

Lemma stopExporter_decision_witness :
  exists out w',
    stopExporter testBackend (sidecar "001") false
        (fakeWorld (inspectScript (inr []) (inr (exited "exported-task001-cid"))) 0 [])
      = (out, w') /\
    exists rest,
      calls w' = ([] ++ [CallContainerInspect "exported-task001-cid";
                         CallNetworkDisconnect "testnet" "exporter001-cid" false]
                    ++ rest)%list.
Proof.
  apply (stopExporter_decision testBackend (sidecar "001") false []
           (inspectScript (inr []) (inr (exited "exported-task001-cid")), 0)
           (inspectScript (inr []) (inr (exited "exported-task001-cid")), 1)
           (inr (exited "exported-task001-cid"))).
  reflexivity.
Defined.

(** What a forced [stopExporter] can end with. *)
Lemma stopExporter_forced {R : Type} (b : DockerBackend R) (exporter : Container)
    (w : World R) :
  exists out w',
    stopExporter b exporter true w = (out, w') /\
    (out = Val None \/ (exists c, out = Val (Some (errWithStack (errClient c)))) \/
     out = Panic outOfRange).
Proof.
  unfold_backend.
  destruct (ContainerInspect _ _) as [[err | exported] r2]; simpl;
    [destruct (negb (IsErrNotFound err)) | rewrite andb_false_r]; simpl;
    try (do 2 eexists; split; [reflexivity |]; eauto; fail);
    (destruct (NetworkDisconnect _ _ _ _) as [[ed |] r3]; simpl;
     [| destruct (ContainerStop _ _) as [[es |] r4]; simpl;
        [| destruct (ContainerRemove _ _ _) as [[erm |] r5]; simpl;
           [| destruct (ctr_Names exporter); simpl]]]);
    do 2 eexists; (split; [reflexivity |]); eauto.
Qed.

Lemma cleanupLoop_forced {R : Type} (b : DockerBackend R) (exporters : list Container) :
  forall w : World R,
    exists out w',
      cleanupLoop b true exporters [] w = (out, w') /\
      forall e, out = Val (Some e) -> exists c, e = errWithStack (errClient c).
Proof.
  induction exporters as [| exporter rest IH]; intros w; simpl.
  - do 2 eexists. split; [reflexivity |]. unfold ret. intros e [=].
  - unfold bind at 1.
    destruct (stopExporter_forced b exporter w) as (out & w1 & -> & Hout).
    destruct Hout as [-> | [(c & ->) | ->]].
    + apply IH.
    + simpl. do 2 eexists. split; [reflexivity |]. unfold ret.
      intros e [= <-]. eauto.
    + do 2 eexists. split; [reflexivity |]. intros e [=].
Qed.

(** X8. A forced teardown is never refused.  With [force] set,
    [stopExporter] does not return the still-running error, whatever the
    inspection says; and [CleanupExporters] does not return the aggregate
    error of refused sidecars: an error it returns is an error of a client
    call under a recorded stack. *)
Theorem forced_teardown_never_refused {R : Type} (b : DockerBackend R)
    (exporter : Container) (w : World R) :
  (exists out w',
     stopExporter b exporter true w = (out, w') /\
     forall e, out = Val (Some e) -> IsErrExportedTaskStillRunning e = false) /\
  (exists out w',
     CleanupExporters b true w = (out, w') /\
     forall e, out = Val (Some e) -> exists c, e = errWithStack (errClient c)).
Proof.
  split.
  - destruct (stopExporter_forced b exporter w) as (out & w' & Hrun & Hout).
    exists out, w'. split; [exact Hrun |].
    intros e ->. destruct Hout as [[=] | [(c & [= ->]) | [=]]]. reflexivity.
  - unfold CleanupExporters, bind, invoke. simpl.
    destruct (ContainerList _ _) as [[err | exporters] r1]; simpl.
    + do 2 eexists. split; [reflexivity |]. unfold ret. intros e [= <-]. eauto.
    + apply cleanupLoop_forced.
Qed.

(** X9. A listing that fails ends each of the three operations that start
    with one, and nothing else is called.  [CleanupExporter] returns the
    error as the client gave it; [CleanupExporters] and
    [FindMissingExporters] return it under a recorded stack, the latter
    with an empty list of exporters and without consulting the catalog. *)
Theorem listing_failure {R : Type} {order : MapRange} (b : DockerBackend R)
    (exporterName : string) (force : bool) (tr : list Call) (r0 r1 : R) (err : cerror) :
  (forall opts, ContainerList (APIClient := cli b) opts r0 = (inl err, r1)) ->
  CleanupExporter b exporterName force (mkWorld r0 tr)
    = (Val (Some (errClient err)),
       mkWorld r1 (tr ++ [CallContainerList (byName exporterName)])%list) /\
  CleanupExporters b force (mkWorld r0 tr)
    = (Val (Some (errWithStack (errClient err))),
       mkWorld r1 (tr ++ [listSidecars])%list) /\
  FindMissingExporters b (mkWorld r0 tr)
    = (Val ([], Some (errWithStack (errClient err))),
       mkWorld r1 (tr ++ [listAll])%list).
Proof.
  intros Hlist.
  unfold CleanupExporter, CleanupExporters, FindMissingExporters, bind, invoke.
  simpl. rewrite !Hlist. repeat split.
Qed.

Lemma listing_failure_witness :
  CleanupExporter testBackend "exporter001" false
      (fakeWorld (inspectScript (inl listError) (inl notFound)) 0 [])
    = (Val (Some (errClient listError)),
       fakeWorld (inspectScript (inl listError) (inl notFound)) 1
         [CallContainerList (byName "exporter001")]).
Proof.
  refine (proj1 (listing_failure testBackend "exporter001" false []
                   (inspectScript (inl listError) (inl notFound), 0)
                   (inspectScript (inl listError) (inl notFound), 1)
                   listError _)).
  intros opts. reflexivity.
Defined.

(** X10. A single teardown addressed to a name that no container or more
    than one container matches fails, with "exporter not found" in the
    first case and with the error of an ambiguous name in the second;
    the listing is the only call: no container is inspected or touched. *)
Theorem CleanupExporter_no_single_match {R : Type} (b : DockerBackend R)
    (exporterName : string) (force : bool) (tr : list Call) (r0 r1 : R)
    (listed : list Container) :
  ContainerList (APIClient := cli b) (byName exporterName) r0 = (inr listed, r1) ->
  length listed <> 1 ->
  CleanupExporter b exporterName force (mkWorld r0 tr)
    = (Val (Some (errNew match listed with
                         | [] => "exporter not found"
                         | _ :: _ =>
                             "more than one container match the provided exporter name"
                         end)),
       mkWorld r1 (tr ++ [CallContainerList (byName exporterName)])%list).
Proof.
  intros Hlist Hlen. unfold byName in *.
  unfold CleanupExporter, bind, invoke. simpl. rewrite Hlist.
  destruct listed as [| c0 [| c1 rest]]; simpl in *; [reflexivity | lia | reflexivity].
Qed.

Lemma CleanupExporter_no_single_match_witness :
  CleanupExporter testBackend "exporter" false
      (fakeWorld (inspectScript (inr [sidecar "001"; sidecar "002"]) (inl notFound)) 0 [])
    = (Val (Some (errNew "more than one container match the provided exporter name")),
       fakeWorld (inspectScript (inr [sidecar "001"; sidecar "002"]) (inl notFound)) 1
         [CallContainerList (byName "exporter")]).
Proof.
  apply (CleanupExporter_no_single_match testBackend "exporter" false []
           (inspectScript (inr [sidecar "001"; sidecar "002"]) (inl notFound), 0)
           (inspectScript (inr [sidecar "001"; sidecar "002"]) (inl notFound), 1)
           [sidecar "001"; sidecar "002"]).
  - reflexivity.
  - simpl. lia.
Defined.

(** X11. The teardown of a sidecar that the runtime lists without a name:
    when it goes on and the disconnection, the stop and the removal all
    succeed, [stopExporter] does not return; it panics on the first name it
    reads for its log line, after the sidecar has been removed. *)
Theorem stopExporter_nameless_panics {R : Type} (b : DockerBackend R)
    (exporter : Container) (force : bool) (tr : list Call) (r1 r2 r3 r4 r5 : R)
    (inspected : cerror + ContainerJSON) :
  ctr_Names exporter = [] ->
  ContainerInspect (APIClient := cli b) (labelOf (ctr_Labels exporter) LABEL_EXPORTED_ID) r1
    = (inspected, r2) ->
  goesOn inspected force = true ->
  NetworkDisconnect (APIClient := cli b) (promNetwork b) (ctr_ID exporter) force r2
    = (None, r3) ->
  ContainerStop (APIClient := cli b) (ctr_ID exporter) r3 = (None, r4) ->
  ContainerRemove (APIClient := cli b) (ctr_ID exporter) force r4 = (None, r5) ->
  stopExporter b exporter force (mkWorld r1 tr)
    = (Panic outOfRange, mkWorld r5 (tr ++ teardownCalls b exporter force)%list).
Proof.
  intros Hnames Hinspect Hgo Hd Hs Hrm. unfold goesOn, teardownCalls in *.
  destruct inspected as [err | exported];
    [| apply negb_true_iff in Hgo];
    unfold_backend; replay; rewrite ?Hnames; simpl;
    repeat rewrite <- app_assoc; reflexivity.
Qed.

Lemma stopExporter_nameless_panics_witness :
  stopExporter testBackend nameless false
      (fakeWorld (inspectScript (inr []) (inl notFound)) 0 [])
    = (Panic outOfRange,
       fakeWorld (inspectScript (inr []) (inl notFound)) 4
         ([] ++ teardownCalls testBackend nameless false)%list).
Proof.
  apply (stopExporter_nameless_panics testBackend nameless false []
           (inspectScript (inr []) (inl notFound), 0)
           (inspectScript (inr []) (inl notFound), 1)
           (inspectScript (inr []) (inl notFound), 2)
           (inspectScript (inr []) (inl notFound), 3)
           (inspectScript (inr []) (inl notFound), 4)
           (inl notFound)); reflexivity.
Defined.

(** ** Missing exporters: edge cases and reconciliation *)

(** [FindMissingExporters] in closed form, for a listing whose containers
    to resolve all have a name. *)
Lemma FindMissingExporters_eq {R : Type} {order : MapRange} (b : DockerBackend R)
    (tr : list Call) (r0 r1 : R) (containers : list Container) :
  ContainerList (APIClient := cli b) {| lo_All := false; lo_Filters := [] |} r0
    = (inr containers, r1) ->
  Forall (fun container => isSidecar container = false -> ctr_Names container <> [])
         containers ->
  FindMissingExporters b (mkWorld r0 tr)
    = (Val (flat_map (fun container =>
                        List.filter
                          (fun e => negb (nameTaken (collectNames containers) e))
                          (resolved b container))
                     (List.filter (fun container => negb (isSidecar container))
                                  containers),
            None),
       mkWorld r1 (tr ++ listAll :: finderCalls containers)%list).
Proof.
  intros Hlist Hnamed.
  unfold FindMissingExporters, bind, invoke. simpl. rewrite Hlist.
  rewrite (missingLoop_eq b _ containers Hnamed). simpl.
  unfold ret, listAll. rewrite <- app_assoc. reflexivity.
Qed.

Lemma missingLoop_panics {R : Type} {order : MapRange} (b : DockerBackend R)
    (containerNames : gmap string string) (before : list Container)
    (container : Container) (rest : list Container) :
  Forall (fun c => isSidecar c = false -> ctr_Names c <> []) before ->
  isSidecar container = false ->
  ctr_Names container = [] ->
  forall (missing : list Exporter) (w : World R),
    missingLoop b containerNames (before ++ container :: rest) missing w
      = (Panic outOfRange, mkWorld (env w) (calls w ++ finderCalls before)%list).
Proof.
  intros Hnamed Hs Hn. unfold finderCalls.
  induction Hnamed as [| c before Hc _ IH]; intros missing w; simpl.
  - unfold isSidecar in Hs.
    destruct (ctr_Labels container !! LABEL_EXPORTED_NAME); [discriminate |].
    rewrite Hn, app_nil_r. destruct w; reflexivity.
  - unfold isSidecar in Hc |- *.
    destruct (ctr_Labels c !! LABEL_EXPORTED_NAME) eqn:El; simpl.
    + apply IH.
    + destruct (ctr_Names c) as [| n ns] eqn:En; [exfalso; apply Hc; reflexivity |].
      unfold first, bind at 1, ret.
      unfold bind at 1. rewrite resolveExporters_eq.
      rewrite IH. simpl. unfold taskOf. rewrite En. simpl.
      rewrite <- !app_assoc. reflexivity.
Qed.

(** X12. Missing-exporter detection over a listing in which a container
    without the sidecar label has no name: [FindMissingExporters] panics
    when it comes to that container and reports nothing, not even the
    exporters missing for the containers before it, for which the catalog
    had been consulted. *)
Theorem FindMissingExporters_nameless_panics {R : Type} {order : MapRange}
    (b : DockerBackend R) (tr : list Call) (r0 r1 : R)
    (before : list Container) (container : Container) (rest : list Container) :
  ContainerList (APIClient := cli b) {| lo_All := false; lo_Filters := [] |} r0
    = (inr (before ++ container :: rest)%list, r1) ->
  Forall (fun c => isSidecar c = false -> ctr_Names c <> []) before ->
  isSidecar container = false ->
  ctr_Names container = [] ->
  FindMissingExporters b (mkWorld r0 tr)
    = (Panic outOfRange, mkWorld r1 (tr ++ listAll :: finderCalls before)%list).
Proof.
  intros Hlist Hnamed Hs Hn.
  unfold FindMissingExporters, bind, invoke. simpl. rewrite Hlist.
  rewrite (missingLoop_panics b _ before container rest Hnamed Hs Hn). simpl.
  unfold listAll. rewrite <- app_assoc. reflexivity.
Qed.

Lemma FindMissingExporters_nameless_panics_witness :
  FindMissingExporters finderBackend
      (fakeWorld (listingScript (testListing ++ [namelessTask])) 0 [])
    = (Panic outOfRange,
       fakeWorld (listingScript (testListing ++ [namelessTask])) 1
         ([] ++ listAll :: finderCalls testListing)%list).
Proof.
  apply (FindMissingExporters_nameless_panics finderBackend []
           (listingScript (testListing ++ [namelessTask]), 0)
           (listingScript (testListing ++ [namelessTask]), 1)
           testListing namelessTask []).
  - reflexivity.
  - repeat constructor; intros _; discriminate.
  - reflexivity.
  - reflexivity.
Defined.

Lemma collectNames_taken (containers : list Container) (e : Exporter) :
  nameTaken (collectNames containers) e = true <->
  exists container, container ∈ containers /\ Name e ∈ ctr_Names container.
Proof.
  rewrite <- collectNames_lookup. unfold nameTaken.
  destruct (collectNames containers !! Name e) as [x |]; split;
    try discriminate; eauto.
  intros [x Hx]. discriminate.
Qed.

(** X13. Reconciliation reaches a fixed point.  Take the exporters that
    [FindMissingExporters] reports for a listing.  In a later listing that
    holds the same containers and, besides, containers that carry the
    sidecar label, among which every reported exporter finds its name,
    [FindMissingExporters] reports nothing. *)
Theorem FindMissingExporters_settles {R : Type} {order : MapRange} (b : DockerBackend R)
    (tr tr' : list Call) (r0 r1 r2 r3 : R) (listing created : list Container)
    (missing : list Exporter) (w1 : World R) :
  ContainerList (APIClient := cli b) {| lo_All := false; lo_Filters := [] |} r0
    = (inr listing, r1) ->
  Forall (fun container => isSidecar container = false -> ctr_Names container <> [])
         listing ->
  FindMissingExporters b (mkWorld r0 tr) = (Val (missing, None), w1) ->
  ContainerList (APIClient := cli b) {| lo_All := false; lo_Filters := [] |} r2
    = (inr (listing ++ created)%list, r3) ->
  Forall (fun container => isSidecar container = true) created ->
  (forall e, e ∈ missing ->
     exists container, container ∈ created /\ Name e ∈ ctr_Names container) ->
  FindMissingExporters b (mkWorld r2 tr')
    = (Val ([], None),
       mkWorld r3 (tr' ++ listAll :: finderCalls listing)%list).
Proof.
  intros Hlist Hnamed Hfirst Hlist' Hcreated Hcovered.
  rewrite (FindMissingExporters_eq b tr r0 r1 listing Hlist Hnamed) in Hfirst.
  injection Hfirst as Hmissing _.
  assert (Hnamed' : Forall (fun container =>
                              isSidecar container = false -> ctr_Names container <> [])
                           (listing ++ created)).
  { apply Forall_app. split; [exact Hnamed |].
    eapply Forall_impl; [exact Hcreated |]. simpl. intros c Hc Hc'. congruence. }
  assert (Hfilter : List.filter (fun container => negb (isSidecar container))
                                (listing ++ created)
                    = List.filter (fun container => negb (isSidecar container)) listing).
  { rewrite List.filter_app.
    assert (Hnone : List.filter (fun container => negb (isSidecar container)) created = []).
    { clear -Hcreated. induction Hcreated as [| c created Hc _ IH]; [reflexivity |].
      simpl. rewrite Hc. exact IH. }
    rewrite Hnone, app_nil_r. reflexivity. }
  rewrite (FindMissingExporters_eq b tr' r2 r3 (listing ++ created) Hlist' Hnamed').
  unfold finderCalls. rewrite Hfilter.
  match goal with
  | |- context [flat_map ?f ?l] =>
      assert (Hempty : flat_map f l = []); [| rewrite Hempty; reflexivity]
  end.
  match goal with |- ?l = [] => destruct l as [| e l'] eqn:El; [reflexivity |] end.
  exfalso.
  assert (Hin : In e (e :: l')) by (left; reflexivity).
  rewrite <- El in Hin. apply in_flat_map in Hin.
  destruct Hin as (c & Hc & He). apply filter_In in He. destruct He as [He Hfree].
  apply negb_true_iff in Hfree.
  assert (Hfree0 : nameTaken (collectNames listing) e = false).
  { destruct (nameTaken (collectNames listing) e) eqn:Ht; [| reflexivity].
    apply collectNames_taken in Ht. destruct Ht as (c' & Hc' & Hn).
    assert (Ht' : nameTaken (collectNames (listing ++ created)) e = true).
    { apply collectNames_taken. exists c'. split; [| exact Hn].
      apply elem_of_app. left. exact Hc'. }
    congruence. }
  assert (Hreported : e ∈ missing).
  { rewrite <- Hmissing. apply list_elem_of_In, in_flat_map. exists c.
    split; [exact Hc |]. apply filter_In. split; [exact He |].
    rewrite Hfree0. reflexivity. }
  destruct (Hcovered e Hreported) as (c' & Hc' & Hn).
  assert (Ht' : nameTaken (collectNames (listing ++ created)) e = true).
  { apply collectNames_taken. exists c'. split; [| exact Hn].
    apply elem_of_app. right. exact Hc'. }
  congruence.
Qed.

Lemma FindMissingExporters_settles_witness :
  FindMissingExporters finderBackend
      (fakeWorld (listingScript (testListing ++ [sidecarOf "5b1e07" missingRedis])) 0 [])
    = (Val ([], None),
       fakeWorld (listingScript (testListing ++ [sidecarOf "5b1e07" missingRedis])) 1
         ([] ++ listAll :: finderCalls testListing)%list).
Proof.
  apply (FindMissingExporters_settles finderBackend [] []
           (listingScript testListing, 0) (listingScript testListing, 1)
           (listingScript (testListing ++ [sidecarOf "5b1e07" missingRedis]), 0)
           (listingScript (testListing ++ [sidecarOf "5b1e07" missingRedis]), 1)
           testListing [sidecarOf "5b1e07" missingRedis] [missingRedis]
           (fakeWorld (listingScript testListing) 1 (listAll :: finderCalls testListing))).
  - reflexivity.
  - repeat constructor; intros _; discriminate.
  - vm_compute. reflexivity.
  - reflexivity.
  - repeat constructor.
  - intros e He. apply list_elem_of_singleton in He. subst e.
    exists (sidecarOf "5b1e07" missingRedis).
    split; [apply list_elem_of_singleton; reflexivity |].
    apply list_elem_of_singleton. reflexivity.
Defined.

(** ** Exporter names: when two of them coincide *)

Lemma append_inj_l (a x y : string) : a +:+ x = a +:+ y -> x = y.
Proof.
  induction a as [| c a IH]; [auto |].
  rewrite !append_cons. intros H. injection H as H. auto.
Qed.

Lemma TrimLeft_leading_slashes (j : nat) (n : string) :
  TrimLeft (slashes j +:+ n) "/" = TrimLeft n "/".
Proof.
  induction j as [| j IH]; [reflexivity |].
  change (slashes (S j) +:+ n) with (String "/" (slashes j +:+ n)).
  simpl. exact IH.
Qed.

(** X14. The name computed for an exporter starts with "/exporter."; it
    does not depend on how many slashes lead the task name; and for one
    catalog key, two task names get the same exporter name exactly when
    they are equal once their leading slashes are trimmed.  Across keys
    the name does not tell the key from the task: the key "a.b" with the
    task "c" and the key "a" with the task "b.c" get the same name. *)
Theorem getExporterName_coincide (k n n' : string) (j : nat) :
  HasPrefix (getExporterName k n) "/exporter." = true /\
  getExporterName k (slashes j +:+ n) = getExporterName k n /\
  (getExporterName k n = getExporterName k n' <-> TrimLeft n "/" = TrimLeft n' "/") /\
  getExporterName "a.b" "c" = getExporterName "a" "b.c".
Proof.
  split; [| split; [| split]].
  - apply HasPrefix_spec. eexists. reflexivity.
  - unfold getExporterName. rewrite TrimLeft_leading_slashes. reflexivity.
  - unfold getExporterName. split; [| intros ->; reflexivity].
    intros H. apply append_inj_l in H. apply append_inj_l in H.
    apply append_inj_l in H. exact H.
  - reflexivity.
Qed.

(** ** The retry helper with an attempt bound of 0 *)

(** X15. With an attempt bound of 0, [retry] behaves for every operation
    as it would with a bound of [2^64]: the operation is invoked at least
    once; [retry] stops at the first invocation that succeeds, so that an
    operation that succeeds at once is invoked once and no sleep is made;
    and it gives up with the last error only after [2^64] failures. *)
Theorem retry_zero_any {St : Type} (interval : Z) (f : St -> option error * St)
    (s : St) (log : list RetryEvent) :
  exists k : nat,
    1 <= k /\ (Z.of_nat k <= 2 ^ 64)%Z /\
    retry 0 interval f (mkRetryWorld s log)
      = (attempt f s (k - 1),
         mkRetryWorld (stateAfter f s k) (log ++ schedule k interval)%list) /\
    (forall i, i < k - 1 -> attempt f s i <> None) /\
    (attempt f s 0 = None -> k = 1) /\
    (attempt f s (k - 1) <> None -> Z.of_nat k = (2 ^ 64)%Z).
Proof.
  assert (Hwrap : uintSub 0 1 = (2 ^ 64 - 1)%Z) by reflexivity.
  destruct (retry_attempts interval f (Z.to_nat (2 ^ 64 - 1)) 0 s log)
    as (k & Hk & Hrun & Hfail & Hlast).
  { rewrite Hwrap. lia. }
  exists k. split; [lia |]. split; [lia |]. split; [exact Hrun |].
  split; [exact Hfail |]. split.
  - intros Hfirst. destruct (decide (k = 1)) as [-> | Hne]; [reflexivity |].
    exfalso. apply (Hfail 0); [lia | exact Hfirst].
  - intros H. apply Hlast in H. lia.
Qed.

(** ** The cancellation registry *)

(** X16. Registering then cancelling: [add] derives a context from the
    given one and files its cancel function under the key; [cancel] of
    that key then calls that function, once, and leaves the registry as it
    was before with the key deleted, while [remove] deletes the key and
    calls nothing.  Once the key is gone, cancelling or removing it again
    changes nothing and calls nothing. *)
Theorem registry_add_cancel (c : cancelCollection) (k : string) (ctx : EventCtx)
    (cw : CancelWorld) :
  let derived := ctxWithCancel (nextSerial cw) ctx in
  let gone := mkCancelCollection (delete k (funcs c)) in
  let cw1 := mkCancelWorld (S (nextSerial cw)) (called cw) in
  exists c1,
    add c k ctx cw = (derived, c1, cw1) /\
    funcs c1 !! k = Some derived /\
    cancel c1 k cw1 = (gone, callCancel derived cw1) /\
    remove c1 k = gone /\
    cancel gone k (callCancel derived cw1) = (gone, callCancel derived cw1) /\
    remove gone k = gone.
Proof.
  simpl. eexists. split; [reflexivity |]. simpl.
  unfold cancel, remove. simpl.
  rewrite !lookup_insert_eq, !delete_insert_eq, !lookup_delete_eq.
  repeat split.
Qed.

(** ** The dispatch of events *)

Lemma dispatch_cases (ctx : EventCtx) (evt : Message) (l : Listener) :
  (handled evt = false /\ dispatch ctx evt l = l) \/
  (handled evt = true /\ msg_Action evt = "start" /\
   dispatch ctx evt l
   = mkListener
       (mkCancelCollection
          (<[actor_ID evt := ctxWithCancel (nextSerial (cancels l)) ctx]>
             (funcs (cancellables l))))
       (mkCancelWorld (S (nextSerial (cancels l))) (called (cancels l)))
       (spawned l ++ [{| job_ctx := ctx; job_evt := evt |}])%list) \/
  (handled evt = true /\ msg_Action evt = "die" /\
   dispatch ctx evt l
   = mkListener (fst (cancel (cancellables l) (actor_ID evt) (cancels l)))
       (snd (cancel (cancellables l) (actor_ID evt) (cancels l)))
       (spawned l ++ [{| job_ctx := ctx; job_evt := evt |}])%list).
Proof.
  unfold dispatch, handled.
  destruct (actor_Attributes evt !! LABEL_EXPORTED_NAME); [left; auto |].
  destruct (String.eqb (msg_Action evt) "start") eqn:Es.
  - apply String.eqb_eq in Es. right; left. simpl. auto.
  - destruct (String.eqb (msg_Action evt) "die") eqn:Ed.
    + apply String.eqb_eq in Ed. right; right. simpl.
      destruct (cancel _ _ _). auto.
    + left. auto.
Qed.

Lemma listenerInv_dispatch (ctx : EventCtx) (cw0 : CancelWorld) (evt : Message)
    (l : Listener) (extra : list CancelFunc) :
  listenerInv ctx cw0 l extra ->
  exists extra', listenerInv ctx cw0 (dispatch ctx evt l) extra'.
Proof.
  intros Hinv.
  pose proof Hinv as (Hcalled & Hnext & Hnodup & Hextra & Hreg & Hinj & Hjobs & Hlen).
  destruct (dispatch_cases ctx evt l) as [(_ & ->) | [(_ & Hs & ->) | (_ & Hd & ->)]].
  - exists extra. exact Hinv.
  - exists extra. unfold listenerInv, madeSince in *. simpl.
    split; [assumption |]. split; [lia |]. split; [assumption |].
    split; [| split; [| split; [| split]]].
    + intros f Hf. destruct (Hextra f Hf) as (n & -> & Hn). exists n. split; [reflexivity | lia].
    + intros k f Hk. destruct (decide (actor_ID evt = k)) as [E | Hne].
      * subst k. rewrite lookup_insert_eq in Hk. injection Hk as <-. split.
        -- eexists. split; [reflexivity | lia].
        -- intros Hin. destruct (Hextra _ Hin) as (n & [= <-] & Hn). lia.
      * rewrite lookup_insert_ne in Hk by assumption.
        destruct (Hreg k f Hk) as ((n & -> & Hn) & Hnot). split; [| assumption].
        exists n. split; [reflexivity | lia].
    + intros k1 k2 f H1 H2.
      destruct (decide (actor_ID evt = k1)) as [E1 | N1],
               (decide (actor_ID evt = k2)) as [E2 | N2].
      * congruence.
      * subst k1. rewrite lookup_insert_eq in H1. injection H1 as <-.
        rewrite lookup_insert_ne in H2 by assumption.
        destruct (Hreg k2 _ H2) as ((n & [= <-] & Hn) & _). lia.
      * subst k2. rewrite lookup_insert_eq in H2. injection H2 as <-.
        rewrite lookup_insert_ne in H1 by assumption.
        destruct (Hreg k1 _ H1) as ((n & [= <-] & Hn) & _). lia.
      * rewrite lookup_insert_ne in H1, H2 by assumption. eauto.
    + apply Forall_app. split; [assumption | repeat constructor].
    + rewrite List.filter_app, length_app. lia.
  - unfold cancel.
    destruct (funcs (cancellables l) !! actor_ID evt) as [f |] eqn:Ef; simpl.
    + exists (extra ++ [f])%list. unfold listenerInv, madeSince in *. simpl.
      destruct (Hreg _ _ Ef) as (Hmade & Hnot).
      split; [rewrite Hcalled, app_assoc; reflexivity |].
      split; [assumption |].
      split; [apply NoDup_app; split; [assumption |]; split;
              [intros x Hx Hx1; apply list_elem_of_singleton in Hx1; congruence
              | apply NoDup_singleton] |].
      split; [| split; [| split; [| split]]].
      * intros g Hg. apply elem_of_app in Hg. destruct Hg as [Hg | Hg]; [auto |].
        apply list_elem_of_singleton in Hg. subst g. exact Hmade.
      * intros k g Hk. apply lookup_delete_Some in Hk. destruct Hk as [Hne Hk].
        destruct (Hreg k g Hk) as (Hm & Hn). split; [assumption |].
        intros Hin. apply elem_of_app in Hin. destruct Hin as [Hin | Hin]; [auto |].
        apply list_elem_of_singleton in Hin. subst g.
        apply Hne. exact (Hinj _ _ _ Ef Hk).
      * intros k1 k2 g H1 H2. apply lookup_delete_Some in H1, H2.
        destruct H1 as [_ H1], H2 as [_ H2]. eauto.
      * apply Forall_app. split; [assumption | repeat constructor].
      * rewrite List.filter_app, !length_app. simpl. rewrite Hd. simpl. lia.
    + exists extra. unfold listenerInv. simpl.
      refine (conj Hcalled (conj Hnext (conj Hnodup (conj Hextra
                (conj Hreg (conj Hinj (conj _ _))))))).
      * apply Forall_app. split; [assumption | repeat constructor].
      * rewrite List.filter_app, length_app. lia.
Qed.

Lemma listenerInv_remove (ctx : EventCtx) (cw0 : CancelWorld) (k : string)
    (l : Listener) (extra : list CancelFunc) :
  listenerInv ctx cw0 l extra ->
  listenerInv ctx cw0
    (mkListener (remove (cancellables l) k) (cancels l) (spawned l)) extra.
Proof.
  intros Hinv.
  pose proof Hinv as (Hcalled & Hnext & Hnodup & Hextra & Hreg & Hinj & Hjobs & Hlen).
  unfold remove. destruct (funcs (cancellables l) !! k) eqn:Ek.
  - unfold listenerInv. simpl.
    refine (conj Hcalled (conj Hnext (conj Hnodup (conj Hextra
              (conj _ (conj _ (conj Hjobs Hlen))))))).
    + intros k' g Hk. apply lookup_delete_Some in Hk. destruct Hk as [_ Hk].
      exact (Hreg _ _ Hk).
    + intros k1 k2 g H1 H2. apply lookup_delete_Some in H1, H2.
      destruct H1 as [_ H1], H2 as [_ H2]. eauto.
  - destruct l as [[m] cw jobs]. exact Hinv.
Qed.

Lemma listenerInv_listen (ctx : EventCtx) (cw0 : CancelWorld) (incoming : list Incoming) :
  forall l extra,
    listenerInv ctx cw0 l extra ->
    exists extra', listenerInv ctx cw0 (snd (listen ctx incoming l)) extra'.
Proof.
  induction incoming as [| [err | evt | k] rest IH]; intros l extra Hinv; simpl.
  - eauto.
  - eauto.
  - destruct (listenerInv_dispatch ctx cw0 evt l extra Hinv) as (extra' & Hinv').
    eapply IH. exact Hinv'.
  - eapply IH. apply listenerInv_remove. exact Hinv.
Qed.

Lemma listenerInv_start (ctx : EventCtx) (cw0 : CancelWorld) :
  listenerInv ctx cw0 (startListener cw0) [].
Proof.
  unfold listenerInv, startListener, newCancelCollection. simpl.
  rewrite app_nil_r.
  split; [reflexivity |]. split; [lia |]. split; [constructor |].
  split; [intros f Hf; apply elem_of_nil in Hf; contradiction |].
  split; [intros k f Hk; rewrite lookup_empty in Hk; discriminate |].
  split; [intros k1 k2 f Hk; rewrite lookup_empty in Hk; discriminate |].
  split; [constructor | simpl; lia].
Qed.

Lemma listen_spawned (ctx : EventCtx) (incoming : list Incoming) :
  forall l,
    map job_evt (spawned (snd (listen ctx incoming l)))
    = (map job_evt (spawned l) ++ List.filter handled (eventsOf incoming))%list.
Proof.
  induction incoming as [| [err | evt | k] rest IH]; intros l; simpl.
  - rewrite app_nil_r. reflexivity.
  - rewrite app_nil_r. reflexivity.
  - rewrite IH.
    destruct (dispatch_cases ctx evt l) as [(-> & ->) | [(-> & _ & ->) | (-> & _ & ->)]];
      simpl; [reflexivity | |];
      rewrite map_app, <- app_assoc; reflexivity.
  - rewrite IH. reflexivity.
Qed.

Lemma cancelledBy_deeper (fs extra : list CancelFunc) (d : nat) :
  (forall f, f ∈ extra -> d < depth f) ->
  forall ctx, depth ctx <= d ->
    cancelledBy (fs ++ extra) ctx = cancelledBy fs ctx.
Proof.
  intros Hdeep. induction ctx as [| serial parent IH]; intros Hd; simpl in *.
  - reflexivity.
  - rewrite IH by lia. f_equal. apply bool_decide_ext.
    rewrite elem_of_app. split; [| tauto].
    intros [H | H]; [exact H |]. apply Hdeep in H. simpl in H. lia.
Qed.

(** X17. Every run of the listener, whatever the events, their order, and
    the moments at which its goroutines end.  The goroutines it has
    started are those of the events it handles, in order: the events whose
    actor does not carry the sidecar label and whose action is start or
    die.  Each of them is given the listener's own context, not the
    context that [add] derived for it; and no cancel function called
    through the registry cancels that context: whether it is done is the
    same after the run as before. *)
Theorem listener_jobs (ctx : EventCtx) (incoming : list Incoming) (cw0 : CancelWorld) :
  let l := snd (listen ctx incoming (startListener cw0)) in
  map job_evt (spawned l) = List.filter handled (eventsOf incoming) /\
  Forall (fun j => job_ctx j = ctx) (spawned l) /\
  cancelledBy (called (cancels l)) ctx = cancelledBy (called cw0) ctx.
Proof.
  simpl.
  destruct (listenerInv_listen ctx cw0 incoming _ _ (listenerInv_start ctx cw0))
    as (extra & Hcalled & _ & _ & Hextra & _ & _ & Hjobs & _).
  split; [| split].
  - rewrite listen_spawned. reflexivity.
  - exact Hjobs.
  - rewrite Hcalled. apply (cancelledBy_deeper _ _ (depth ctx)); [| lia].
    intros f Hf. destruct (Hextra f Hf) as (n & -> & _). simpl. lia.
Qed.

Lemma filter_die_handled (evts : list Message) :
  length (List.filter (fun evt => String.eqb (msg_Action evt) "die")
                      (List.filter handled evts))
  <= length (List.filter (fun evt => String.eqb (msg_Action evt) "die") evts).
Proof.
  induction evts as [| evt evts IH]; simpl; [lia |].
  destruct (handled evt); simpl; destruct (String.eqb (msg_Action evt) "die");
    simpl; lia.
Qed.

(** X18. Every run of the listener: the cancel functions called through
    the registry since it started are all different, so that none is
    called twice; a cancel function that is still registered has not been
    called; and no more of them were called than there were die events. *)
Theorem listener_cancels_once (ctx : EventCtx) (incoming : list Incoming)
    (cw0 : CancelWorld) :
  let l := snd (listen ctx incoming (startListener cw0)) in
  exists extra,
    called (cancels l) = (called cw0 ++ extra)%list /\
    NoDup extra /\
    (forall k f, funcs (cancellables l) !! k = Some f -> f ∉ extra) /\
    length extra
    <= length (List.filter (fun evt => String.eqb (msg_Action evt) "die")
                           (eventsOf incoming)).
Proof.
  simpl.
  destruct (listenerInv_listen ctx cw0 incoming _ _ (listenerInv_start ctx cw0))
    as (extra & Hcalled & _ & Hnodup & _ & Hreg & _ & _ & Hlen).
  exists extra. split; [exact Hcalled |]. split; [exact Hnodup |].
  split; [intros k f Hk; apply (Hreg k f Hk) |].
  etransitivity; [exact Hlen |].
  etransitivity; [| apply filter_die_handled].
  pose proof (listen_spawned ctx incoming (startListener cw0)) as Hs.
  simpl in Hs. rewrite <- Hs. clear.
  generalize (spawned (snd (listen ctx incoming (startListener cw0)))).
  intros jobs. induction jobs as [| j jobs IH]; simpl; [lia |].
  destruct (String.eqb (msg_Action (job_evt j)) "die"); simpl; lia.
Qed.

(** X19. While none of its goroutines has ended, the registry of the
    listener holds an entry for exactly the actors whose last handled
    event is a start; an actor whose last handled event is a die, or for
    which no event was handled, has none. *)
Theorem listener_registry (ctx : EventCtx) (evts : list Message) (cw0 : CancelWorld)
    (actorID : string) :
  is_Some (funcs (cancellables
                    (snd (listen ctx (map fromEvtCh evts) (startListener cw0))))
           !! actorID)
  <-> lastAction actorID evts = Some "start".
Proof.
  assert (Hgen : forall l,
             is_Some (funcs (cancellables (snd (listen ctx (map fromEvtCh evts) l)))
                      !! actorID)
             <-> match lastAction actorID evts with
                 | Some action => action = "start"
                 | None => is_Some (funcs (cancellables l) !! actorID)
                 end).
  { induction evts as [| evt evts IH]; intros l; simpl; [reflexivity |].
    rewrite IH. destruct (lastAction actorID evts) as [action |]; [reflexivity |].
    destruct (dispatch_cases ctx evt l) as [(-> & ->) | [(-> & Hs & ->) | (-> & Hd & ->)]];
      simpl; [reflexivity | |].
    - destruct (String.eqb (actor_ID evt) actorID) eqn:Ea.
      + apply String.eqb_eq in Ea. rewrite Ea, lookup_insert_eq, Hs.
        split; [reflexivity | eauto].
      + apply String.eqb_neq in Ea. rewrite lookup_insert_ne by assumption. reflexivity.
    - unfold cancel.
      destruct (String.eqb (actor_ID evt) actorID) eqn:Ea.
      + apply String.eqb_eq in Ea. rewrite Ea, Hd.
        destruct (funcs (cancellables l) !! actorID) as [f |] eqn:Ef; simpl.
        * rewrite lookup_delete_eq. split; [intros [x Hx]; discriminate | discriminate].
        * rewrite Ef. split; [intros [x Hx]; discriminate | discriminate].
      + apply String.eqb_neq in Ea.
        destruct (funcs (cancellables l) !! actor_ID evt) as [f |]; simpl;
          [rewrite lookup_delete_ne by assumption |]; reflexivity. }
  rewrite Hgen. destruct (lastAction actorID evts) as [action |].
  - split; [intros ->; reflexivity | intros [= ->]; reflexivity].
  - simpl. rewrite lookup_empty. split; [intros [x Hx]; discriminate | discriminate].
Qed.

Lemma orphan_dispatch (ctx : EventCtx) (evt : Message) (l : Listener) (f : CancelFunc) :
  orphan f l -> orphan f (dispatch ctx evt l).
Proof.
  intros Horphan. pose proof Horphan as ((n & p & -> & Hn) & Hcalled & Hreg).
  destruct (dispatch_cases ctx evt l) as [(_ & ->) | [(_ & _ & ->) | (_ & _ & ->)]].
  - exact Horphan.
  - unfold orphan. simpl. split; [exists n, p; split; [reflexivity | lia] |].
    split; [exact Hcalled |]. intros k.
    destruct (decide (actor_ID evt = k)) as [E | Hne].
    + subst k. rewrite lookup_insert_eq. intros [= E1 E2]. lia.
    + rewrite lookup_insert_ne by assumption. apply Hreg.
  - unfold cancel. destruct (funcs (cancellables l) !! actor_ID evt) as [g |] eqn:Eg; simpl.
    + unfold orphan. simpl. split; [eauto |]. split.
      * intros Hin. apply elem_of_app in Hin. destruct Hin as [Hin | Hin]; [auto |].
        apply list_elem_of_singleton in Hin. subst g. exact (Hreg _ Eg).
      * intros k Hk. apply lookup_delete_Some in Hk. destruct Hk as [_ Hk].
        exact (Hreg _ Hk).
    + exact Horphan.
Qed.

Lemma orphan_listen (ctx : EventCtx) (incoming : list Incoming) (f : CancelFunc) :
  forall l, orphan f l -> orphan f (snd (listen ctx incoming l)).
Proof.
  induction incoming as [| [err | evt | k] rest IH]; intros l Horphan; simpl.
  - exact Horphan.
  - exact Horphan.
  - apply IH, orphan_dispatch, Horphan.
  - apply IH. destruct Horphan as (Hmade & Hcalled & Hreg).
    unfold orphan, remove. simpl.
    split; [exact Hmade |]. split; [exact Hcalled |].
    intros k'. destruct (funcs (cancellables l) !! k) eqn:Ek; simpl; [| apply Hreg].
    intros Hk. apply lookup_delete_Some in Hk. destruct Hk as [_ Hk]. exact (Hreg _ Hk).
Qed.

Lemma listen_app (ctx : EventCtx) (pre rest : list Incoming) :
  forall l,
    fst (listen ctx pre l) = None ->
    listen ctx (pre ++ rest) l = listen ctx rest (snd (listen ctx pre l)).
Proof.
  induction pre as [| [err | evt | k] pre IH]; intros l Hok; simpl in *.
  - reflexivity.
  - discriminate.
  - apply IH, Hok.
  - apply IH, Hok.
Qed.

(** X20. A second start before a die.  When the listener handles two start
    events for one actor in a row, the second [add] files its cancel
    function over the first one's.  The first derived context was
    registered, and from then on no event and no end of a goroutine makes
    the registry call its cancel function. *)
Theorem listener_overwritten_start (ctx : EventCtx) (cw0 : CancelWorld)
    (pre post : list Incoming) (evt1 evt2 : Message) :
  (forall n p, ctxWithCancel n p ∈ called cw0 -> n < nextSerial cw0) ->
  fst (listen ctx pre (startListener cw0)) = None ->
  handled evt1 = true -> msg_Action evt1 = "start" ->
  handled evt2 = true -> msg_Action evt2 = "start" ->
  actor_ID evt2 = actor_ID evt1 ->
  let l0 := snd (listen ctx pre (startListener cw0)) in
  let lost := ctxWithCancel (nextSerial (cancels l0)) ctx in
  funcs (cancellables (dispatch ctx evt1 l0)) !! actor_ID evt1 = Some lost /\
  lost ∉ called (cancels (snd (listen ctx
                                 (pre ++ fromEvtCh evt1 :: fromEvtCh evt2 :: post)
                                 (startListener cw0)))).
Proof.
  intros Hworld Hok Hh1 Hs1 Hh2 Hs2 Hsame l0 lost.
  destruct (listenerInv_listen ctx cw0 pre _ _ (listenerInv_start ctx cw0))
    as (extra & Hcalled & Hnext & _ & Hextra & Hreg & _ & _ & _).
  fold l0 in Hcalled, Hnext, Hextra, Hreg.
  assert (Hd1 : dispatch ctx evt1 l0
                = mkListener
                    (mkCancelCollection (<[actor_ID evt1 := lost]> (funcs (cancellables l0))))
                    (mkCancelWorld (S (nextSerial (cancels l0))) (called (cancels l0)))
                    (spawned l0 ++ [{| job_ctx := ctx; job_evt := evt1 |}])%list).
  { destruct (dispatch_cases ctx evt1 l0) as [(H & _) | [(_ & _ & H) | (_ & H & _)]];
      [congruence | exact H | rewrite Hs1 in H; discriminate]. }
  split; [rewrite Hd1; simpl; apply lookup_insert_eq |].
  rewrite listen_app by exact Hok. fold l0. simpl.
  apply orphan_listen. rewrite Hd1.
  destruct (dispatch_cases ctx evt2
              (mkListener
                 (mkCancelCollection (<[actor_ID evt1 := lost]> (funcs (cancellables l0))))
                 (mkCancelWorld (S (nextSerial (cancels l0))) (called (cancels l0)))
                 (spawned l0 ++ [{| job_ctx := ctx; job_evt := evt1 |}])%list))
    as [(H & _) | [(_ & _ & ->) | (_ & H & _)]];
    [congruence | | rewrite Hs2 in H; discriminate].
  unfold orphan. simpl. split; [exists (nextSerial (cancels l0)), ctx; split; [reflexivity | lia] |].
  split.
  - rewrite Hcalled. intros Hin. apply elem_of_app in Hin. destruct Hin as [Hin | Hin].
    + apply Hworld in Hin. lia.
    + destruct (Hextra _ Hin) as (n & [= <-] & Hn). lia.
  - intros k. rewrite Hsame.
    destruct (decide (actor_ID evt1 = k)) as [E | Hne].
    + subst k. rewrite lookup_insert_eq. intros [= E1]. lia.
    + rewrite !lookup_insert_ne by assumption. intros Hk.
      destruct (Hreg _ _ Hk) as ((n & [= <-] & Hn) & _). lia.
Qed.

Lemma listener_overwritten_start_witness :
  funcs (cancellables (dispatch ctxGiven (startOf "0f3c1a") (startListener freshCancels)))
    !! "0f3c1a" = Some (ctxWithCancel 0 ctxGiven) /\
  ctxWithCancel 0 ctxGiven ∉
    called (cancels (snd (listen ctxGiven
                            ([] ++ [fromEvtCh (startOf "0f3c1a");
                                    fromEvtCh (startOf "0f3c1a");
                                    fromEvtCh (dieOf "0f3c1a")])
                            (startListener freshCancels)))).
Proof.
  apply (listener_overwritten_start ctxGiven freshCancels []
           [fromEvtCh (dieOf "0f3c1a")] (startOf "0f3c1a") (startOf "0f3c1a"));
    try reflexivity.
  intros n p Hin. apply elem_of_nil in Hin. contradiction.
Defined.

(** ** The handlers of the event listener *)

Lemma remove_lookup (c : cancelCollection) (k : string) :
  funcs (remove c k) !! k = None.
Proof.
  unfold remove. destruct (funcs c !! k) eqn:Ek; simpl;
    [apply lookup_delete_eq | exact Ek].
Qed.

(** X21. Every goroutine of the listener, whatever its handler does:
    the handler is invoked at least once and at most three times, with a
    sleep of 5 between two invocations; the goroutine stops invoking it at
    the first success, and logs the third error when all three fail; and
    in every case it ends by removing the entry of its actor from the
    registry, without calling the cancel function filed there. *)
Theorem runJob_bounded {St J E T : Type} (b : EventBackend St J E T) (j : Job)
    (promNetwrk : string) (c : cancelCollection) (s : St) (log : list RetryEvent) :
  let h := handler b (job_ctx j) (job_evt j) promNetwrk in
  exists k : nat,
    1 <= k <= 3 /\
    runJob b j promNetwrk c (mkRetryWorld s log)
      = (attempt h s (k - 1),
         mkRetryWorld (stateAfter h s k) (log ++ schedule k 5)%list,
         remove c (actor_ID (job_evt j))) /\
    funcs (remove c (actor_ID (job_evt j))) !! actor_ID (job_evt j) = None /\
    (forall i, i < k - 1 -> attempt h s i <> None) /\
    (attempt h s (k - 1) <> None -> k = 3).
Proof.
  simpl.
  destruct (retry_attempts 5 (handler b (job_ctx j) (job_evt j) promNetwrk) 2 3 s log)
    as (k & Hk & Hrun & Hfail & Hlast); [reflexivity |].
  exists k. split; [exact Hk |]. split; [unfold runJob; rewrite Hrun; reflexivity |].
  split; [apply remove_lookup |]. split; [exact Hfail | exact Hlast].
Qed.

(** X22. A startup that fails is not retried.  When [handleContainerStart]
    gets as far as running the exporter, it returns nil whatever
    [RunExporter] returns, its error included; the goroutine of the start
    event therefore invokes the handler once, makes no sleep, and has no
    error to log. *)
Theorem handleContainerStart_swallows {St J E T : Type} (b : EventBackend St J E T)
    (ctx : EventCtx) (evt : Message) (promNetwrk : string) (c : cancelCollection)
    (s s1 s2 : St) (log : list RetryEvent) (container : J) (rendered : string)
    (exporter : E) (res : option error) :
  msg_Action evt = "start" ->
  inspectContainer b ctx (actor_ID evt) s = (inr container, s1) ->
  readLabel b container (LABEL_EXPORTER_NAME b) = (rendered, None) ->
  let exporterName :=
    if String.eqb rendered "" then FindMatchingExporter b (containerName b container)
    else rendered in
  exporterName <> "" ->
  FromPredefinedExporter b exporterName promNetwrk container = inr exporter ->
  runExporter b ctx exporter s1 = (res, s2) ->
  handleContainerStart b ctx (actor_ID evt) promNetwrk s = (None, s2) /\
  runJob b {| job_ctx := ctx; job_evt := evt |} promNetwrk c (mkRetryWorld s log)
    = (None, mkRetryWorld s2 (log ++ [Invoked])%list, remove c (actor_ID evt)).
Proof.
  intros Hstart Hinspect Hlabel exporterName Hname Hfound Hrun.
  assert (Hhandle : handleContainerStart b ctx (actor_ID evt) promNetwrk s = (None, s2)).
  { unfold handleContainerStart. rewrite Hinspect, Hlabel. fold exporterName.
    apply String.eqb_neq in Hname. rewrite Hname, Hfound, Hrun. reflexivity. }
  split; [exact Hhandle |].
  unfold runJob. simpl. rewrite retry_body. simpl.
  unfold handler. rewrite Hstart. simpl. rewrite Hhandle. reflexivity.
Qed.

Lemma handleContainerStart_swallows_witness :
  handleContainerStart (exampleEvents ∅) ctxGiven "/redis" "testnet" []
    = (None, ["inspect"; "run redis"]) /\
  runJob (exampleEvents ∅) {| job_ctx := ctxGiven; job_evt := startOf "/redis" |}
      "testnet" newCancelCollection (mkRetryWorld [] [])
    = (None, mkRetryWorld ["inspect"; "run redis"] ([] ++ [Invoked])%list,
       remove newCancelCollection "/redis").
Proof.
  apply (handleContainerStart_swallows (exampleEvents ∅) ctxGiven (startOf "/redis")
           "testnet" newCancelCollection [] ["inspect"] ["inspect"; "run redis"] []
           "/redis" "" "redis" (Some runError)); try reflexivity.
  discriminate.
Defined.

(** X23. The label that names an exporter, in [handleContainerStart].
    When the label of the inspected container renders to a name that is
    not empty, the exporter is looked up under that name and the matching
    of container names is not used: the handler does the same with any
    other matching.  When the rendering fails, at the parsing or at the
    execution of the template, the handler returns that error under a
    recorded stack, in the world the inspection left: no exporter is
    looked up and none is run. *)
Theorem handleContainerStart_label {St J E T : Type} (b : EventBackend St J E T)
    (ctx : EventCtx) (containerId promNetwrk : string) (s s1 : St) (container : J) :
  inspectContainer b ctx containerId s = (inr container, s1) ->
  (forall rendered,
     readLabel b container (LABEL_EXPORTER_NAME b) = (rendered, None) ->
     rendered <> "" ->
     handleContainerStart b ctx containerId promNetwrk s
       = match FromPredefinedExporter b rendered promNetwrk container with
         | inl err =>
             (if IsErrPredefinedExporterNotFound b err then None else Some err, s1)
         | inr exporter => (None, snd (runExporter b ctx exporter s1))
         end /\
     forall matching,
       handleContainerStart (withMatching b matching) ctx containerId promNetwrk s
         = handleContainerStart b ctx containerId promNetwrk s) /\
  (forall rendered err,
     readLabel b container (LABEL_EXPORTER_NAME b) = (rendered, Some err) ->
     handleContainerStart b ctx containerId promNetwrk s = (Some err, s1) /\
     exists cause, err = errWithStack cause).
Proof.
  intros Hinspect. split.
  - intros rendered Hlabel Hname. apply String.eqb_neq in Hname.
    assert (Hany : forall matching,
               handleContainerStart (withMatching b matching) ctx containerId promNetwrk s
               = match FromPredefinedExporter b rendered promNetwrk container with
                 | inl err =>
                     (if IsErrPredefinedExporterNotFound b err then None else Some err, s1)
                 | inr exporter => (None, snd (runExporter b ctx exporter s1))
                 end).
    { intros matching. unfold handleContainerStart. simpl. rewrite Hinspect.
      unfold readLabel, renderTpl in *. simpl. rewrite Hlabel.
      rewrite Hname. simpl. rewrite Hname.
      destruct (FromPredefinedExporter b rendered promNetwrk container) as [err | e].
      - destruct (IsErrPredefinedExporterNotFound b err); reflexivity.
      - destruct (runExporter b ctx e s1). reflexivity. }
    assert (Hb : handleContainerStart b ctx containerId promNetwrk s
                 = handleContainerStart (withMatching b (FindMatchingExporter b))
                     ctx containerId promNetwrk s).
    { destruct b. reflexivity. }
    split; [rewrite Hb; apply Hany |].
    intros matching. rewrite Hb, !Hany. reflexivity.
  - intros rendered err Hlabel. split.
    + unfold handleContainerStart. rewrite Hinspect, Hlabel. reflexivity.
    + unfold readLabel, renderTpl in Hlabel.
      destruct (templateParse b _) as [e | tpl]; [injection Hlabel as _ <-; eauto |].
      destruct (templateExecute b tpl container) as [e | val];
        [injection Hlabel as _ <-; eauto | discriminate].
Qed.

Lemma handleContainerStart_label_witness :
  handleContainerStart (exampleEvents (<["autoexporter.exporter" := "redis"]> ∅))
      ctxGiven "/web" "testnet" []
    = (None, ["inspect"; "run redis"]) /\
  handleContainerStart (exampleEvents (<["autoexporter.exporter" := "{{"]> ∅))
      ctxGiven "/web" "testnet" []
    = (Some (errWithStack parseError), ["inspect"]).
Proof.
  split.
  - refine (proj1 (proj1 (handleContainerStart_label
                            (exampleEvents (<["autoexporter.exporter" := "redis"]> ∅))
                            ctxGiven "/web" "testnet" [] ["inspect"] "/web" _)
                     "redis" _ _)); [reflexivity | reflexivity | discriminate].
  - refine (proj1 (proj2 (handleContainerStart_label
                            (exampleEvents (<["autoexporter.exporter" := "{{"]> ∅))
                            ctxGiven "/web" "testnet" [] ["inspect"] "/web" _)
                     "" (errWithStack parseError) _)); reflexivity.
Defined.

(** ** The conflict of container names *)

Lemma stripPrefix_spec (prefix : string) : forall s rest,
  stripPrefix s prefix = Some rest <-> s = prefix +:+ rest.
Proof.
  induction prefix as [| a prefix IH]; intros s rest.
  - rewrite append_empty_l. destruct s; simpl; split; intros H; congruence.
  - destruct s as [| c s]; simpl.
    + split; [discriminate | intros H; rewrite append_cons in H; discriminate].
    + rewrite append_cons. destruct (Ascii.eqb c a) eqn:Ec.
      * apply Ascii.eqb_eq in Ec. subst c. rewrite IH.
        split; [intros ->; reflexivity | intros [= ->]; reflexivity].
      * apply Ascii.eqb_neq in Ec. split; [discriminate | intros [= -> _]; congruence].
Qed.

Lemma nameThenAfter_spec : forall s seen,
  nameThenAfter s seen = true <->
  exists name rest,
    s = name +:+ conflictAfter +:+ rest /\ quoteFree name = true /\
    (seen = true \/ name <> "").
Proof.
  induction s as [| c s IH]; intros seen.
  - simpl. split; [discriminate |].
    intros (name & rest & H & _). destruct name; discriminate.
  - change (nameThenAfter (String c s) seen)
      with (if Ascii.eqb c (ascii_of_nat 34)
            then seen && HasPrefix (String c s) conflictAfter
            else nameThenAfter s true).
    destruct (Ascii.eqb c (ascii_of_nat 34)) eqn:Ec.
    + rewrite andb_true_iff, HasPrefix_spec. split.
      * intros (-> & rest & H). exists EmptyString, rest. auto.
      * intros (name & rest & H & Hq & Hseen). destruct name as [| c' name].
        -- destruct Hseen as [-> | Hne]; [| congruence]. split; [reflexivity |].
           exists rest. exact H.
        -- rewrite append_cons in H. injection H as -> _.
           simpl in Hq. rewrite Ec in Hq. discriminate.
    + rewrite IH. split.
      * intros (name & rest & -> & Hq & _). exists (String c name), rest.
        split; [reflexivity |]. split; [simpl; rewrite Ec; exact Hq |].
        right. discriminate.
      * intros (name & rest & H & Hq & _). destruct name as [| c' name].
        -- apply Ascii.eqb_neq in Ec. exfalso. apply Ec.
           change (EmptyString +:+ conflictAfter +:+ rest)
             with (String (ascii_of_nat 34) (" is already in use" +:+ rest)) in H.
           injection H as -> _. reflexivity.
        -- rewrite append_cons in H. injection H as <- ->.
           simpl in Hq. rewrite Ec in Hq. exists name, rest. auto.
Qed.

Lemma matchConflict_spec : forall s,
  matchConflict s = true <->
  exists before name rest,
    s = before +:+ conflictBefore +:+ name +:+ conflictAfter +:+ rest /\
    name <> "" /\ quoteFree name = true.
Proof.
  assert (Hat : forall s,
             conflictAt s = true <->
             exists name rest,
               s = conflictBefore +:+ name +:+ conflictAfter +:+ rest /\
               name <> "" /\ quoteFree name = true).
  { intros s. unfold conflictAt. split.
    - destruct (stripPrefix s conflictBefore) as [tail |] eqn:Es; [| discriminate].
      apply stripPrefix_spec in Es. intros H. apply nameThenAfter_spec in H.
      destruct H as (name & rest & -> & Hq & [[=] | Hne]). eauto.
    - intros (name & rest & -> & Hne & Hq).
      assert (Es : stripPrefix (conflictBefore +:+ name +:+ conflictAfter +:+ rest)
                     conflictBefore = Some (name +:+ conflictAfter +:+ rest)).
      { apply stripPrefix_spec. reflexivity. }
      rewrite Es. apply nameThenAfter_spec. eauto 6. }
  induction s as [| c s IH].
  - change (matchConflict EmptyString) with (conflictAt EmptyString || false).
    rewrite orb_false_r, Hat. split.
    + intros (name & rest & H & Hne & Hq). exists EmptyString, name, rest. auto.
    + intros (before & name & rest & H & _). destruct before; discriminate.
  - change (matchConflict (String c s)) with (conflictAt (String c s) || matchConflict s).
    rewrite orb_true_iff, Hat, IH. split.
    + intros [(name & rest & H & Hne & Hq) | (before & name & rest & -> & Hne & Hq)].
      * exists EmptyString, name, rest. auto.
      * exists (String c before), name, rest. auto.
    + intros (before & name & rest & H & Hne & Hq). destruct before as [| c' before].
      * left. exists name, rest. auto.
      * right. rewrite append_cons in H. injection H as -> ->. eauto 6.
Qed.

(** X24. [isErrConflict] holds of an error exactly when its message
    contains, anywhere, the opening text of the pattern, then a name of at
    least one byte without a double quote, then the closing text.  A
    message with nothing between the two quotes, or with the texts in
    other letters, is not a conflict. *)
Theorem isErrConflict_spec (err : error) :
  isErrConflict err = true <->
  exists before name rest,
    Error err = before +:+ conflictBefore +:+ name +:+ conflictAfter +:+ rest /\
    name <> "" /\ quoteFree name = true.
Proof. apply matchConflict_spec. Qed.

(** ** Resolved exporters of one task *)

Lemma length_append (a x : string) :
  String.length (a +:+ x) = String.length a + String.length x.
Proof.
  induction a as [| c a IH]; [reflexivity |].
  rewrite append_cons. simpl. rewrite IH. reflexivity.
Qed.

Lemma append_inj_r (x : string) : forall a a', a +:+ x = a' +:+ x -> a = a'.
Proof.
  induction a as [| c a IH]; intros [| c' a'] H.
  - reflexivity.
  - apply (f_equal String.length) in H. rewrite !length_append in H. simpl in H. lia.
  - apply (f_equal String.length) in H. rewrite !length_append in H. simpl in H. lia.
  - rewrite !append_cons in H. injection H as -> H. f_equal. apply IH. exact H.
Qed.

Lemma getExporterName_inj_key (tname k k' : string) :
  getExporterName k tname = getExporterName k' tname -> k = k'.
Proof.
  unfold getExporterName. intros H. apply append_inj_l in H.
  apply (append_inj_r ("." +:+ TrimLeft tname "/")). exact H.
Qed.

(** X25. The exporters resolved for one task: there is one for each match
    of the catalog, whatever non-fatal errors the catalog reports beside
    its matches, and their names are pairwise different, since for one
    task two catalog keys never give the same name. *)
Theorem resolveExporters_distinct {R : Type} {order : MapRange} (b : DockerBackend R)
    (t : TaskToExport) (w : World R) :
  exists es,
    resolveExporters b t w
      = (Val es, mkWorld (env w) (calls w ++ [CallFindMatchingExporters t])%list) /\
    length es = size (fst (FindMatchingExporters (ExporterFinder := finder b) t)) /\
    NoDup (map Name es).
Proof.
  eexists. split; [apply resolveExporters_eq |].
  set (m := fst (FindMatchingExporters (ExporterFinder := finder b) t)).
  split.
  - rewrite length_map, (mapRange_perm _ m). apply length_map_to_list.
  - rewrite map_map. simpl.
    assert (Hkeys : NoDup (map fst (mapRange m))).
    { rewrite (mapRange_perm _ m). apply NoDup_fst_map_to_list. }
    rewrite <- (map_map fst (fun k => getExporterName k (task_Name t))).
    assert (Hinj : Inj (=) (=) (fun k => getExporterName k (task_Name t))).
    { intros k k' H. exact (getExporterName_inj_key _ _ _ H). }
    apply (NoDup_fmap_2 (fun k => getExporterName k (task_Name t))). exact Hkeys.
Qed.
